(** * SynthChar batch calculator: the engine of [BatchContext.tsx]

    A shallow embedding of the batch-composition engine that lives in
    [src/contexts/BatchContext.tsx], and the properties of the engine's
    specification stated and proved (or refuted) over that embedding.  The
    functions of [lib/chemistry] and [lib/gfUtils] that the provider calls are
    not among the sources at hand; they are modelled from the specification,
    and each such definition says so.

    JavaScript numbers are IEEE 754 binary64 values and are modelled by
    Rocq's primitive [float]; strings are sequences of code units, modelled by
    [string] (which covers the code units 0..255); arrays are lists; a [Map]
    is an insertion-ordered association list. *)

From Stdlib Require Import ZArith List String Ascii Bool Floats Lia.
From Stdlib Require Import Numbers.DecimalString.
Import ListNotations.

Set Warnings "-inexact-float".

Open Scope bool_scope.
Open Scope string_scope.
Open Scope Z_scope.

(** ** JavaScript values *)

Module JS.

(** A JavaScript number. *)
Definition number := float.

Definition NaN : number := PrimFloat.nan.
Definition zero : number := 0%float.

(** [ToBoolean] on a number: [+0], [-0] and [NaN] are falsy. *)
Definition truthy (x : number) : bool :=
  negb (PrimFloat.is_zero x || PrimFloat.is_nan x).

(** [x || d] on numbers. *)
Definition or_else (x d : number) : number :=
  if truthy x then x else d.

(** [x || d] where [x] may be [undefined] (or [null]). *)
Definition opt_or_else (x : option number) (d : number) : number :=
  match x with
  | Some v => or_else v d
  | None => d
  end.

(** [ToBoolean] on a string: only the empty string is falsy. *)
Definition nonempty (s : string) : bool :=
  match s with
  | EmptyString => false
  | String _ _ => true
  end.

(** [ToInt32]: the integer modulo 2^32, read as a signed 32-bit value. *)
Definition toInt32 (z : Z) : Z :=
  (z + 2 ^ 31) mod 2 ^ 32 - 2 ^ 31.

(** The code unit of a character, as [charCodeAt] returns it. *)
Definition charCode (c : ascii) : Z := Z.of_N (N_of_ascii c).

(** *** Characters *)

Definition is_digit (c : ascii) : bool :=
  (48 <=? charCode c) && (charCode c <=? 57).

Definition is_upper (c : ascii) : bool :=
  (65 <=? charCode c) && (charCode c <=? 90).

Definition is_lower (c : ascii) : bool :=
  (97 <=? charCode c) && (charCode c <=? 122).

(** [WhiteSpace] and [LineTerminator] code units below 256: TAB, LF, VT,
    FF, CR, SP and NBSP. *)
Definition is_space (c : ascii) : bool :=
  let n := charCode c in
  ((9 <=? n) && (n <=? 13)) || (n =? 32) || (n =? 160).

Definition digit_value (c : ascii) : Z := charCode c - 48.

(** Value of a hexadecimal digit, if it is one. *)
Definition hex_value (c : ascii) : option Z :=
  let n := charCode c in
  if is_digit c then Some (n - 48)
  else if (97 <=? n) && (n <=? 102) then Some (n - 87)
  else if (65 <=? n) && (n <=? 70) then Some (n - 55)
  else None.

(** *** Strings *)

Fixpoint trimStart (s : string) : string :=
  match s with
  | String c s' => if is_space c then trimStart s' else s
  | EmptyString => EmptyString
  end.

(** Drops trailing white space; the result is empty when [s] is blank. *)
Fixpoint trimEnd (s : string) : string :=
  match s with
  | EmptyString => EmptyString
  | String c s' =>
      match trimEnd s' with
      | EmptyString => if is_space c then EmptyString else String c EmptyString
      | t => String c t
      end
  end.

(** [String.prototype.trim]. *)
Definition trim (s : string) : string := trimEnd (trimStart s).

(** [s.split(sep)] for a one-character separator: the pieces between the
    separators, always at least one piece. *)
Fixpoint split (sep : ascii) (s : string) : list string :=
  match s with
  | EmptyString => [EmptyString]
  | String c s' =>
      if Ascii.eqb c sep then EmptyString :: split sep s'
      else match split sep s' with
           | p :: ps => String c p :: ps
           | [] => [String c EmptyString]
           end
  end.

(** [a.slice(start)] for an integer [start >= 0]. *)
Definition sliceFrom {A : Type} (start : nat) (a : list A) : list A :=
  skipn start a.

(** [a.slice(0, end)] for an integer [end]: a negative [end] counts from
    the end of the array, and the bounds are clamped to the array. *)
Definition sliceTo {A : Type} (end_ : Z) (a : list A) : list A :=
  let len := Z.of_nat (List.length a) in
  let k := if end_ <? 0 then Z.max (len + end_) 0 else Z.min end_ len in
  firstn (Z.to_nat k) a.

(** *** Decimal text to number *)

(** The binary64 value nearest to the integer [m] (ties to even). *)
Definition float_of_Z (m : Z) : number :=
  SF2Prim (binary_normalize prec emax m 0 false).

(** The binary64 value nearest to [m / d] for [m >= 0] and [d > 0]: the
    quotient is taken with at least 64 significant bits and a sticky bit, so
    that a single rounding decides the result. *)
Definition float_of_ratio (m d : Z) : number :=
  if m =? 0 then zero
  else
    let s := Z.max 0 (Z.log2 d - Z.log2 m + 66) in
    let q := (m * 2 ^ s) / d in
    let r := (m * 2 ^ s) mod d in
    let sticky := if r =? 0 then 0 else 1 in
    SF2Prim (binary_normalize prec emax (2 * q + sticky) (- (s + 1)) false).

(** The value [m * 10^e] rounded to binary64, for [m >= 0].  Exponents so
    large or so small that the result is certainly infinite or zero are cut
    short. *)
Definition float_of_decimal (m e : Z) : number :=
  if m =? 0 then zero
  else if 400 <? e then PrimFloat.infinity
  else if e + Z.log2 m <? -1500 then zero
  else if 0 <=? e then float_of_Z (m * 10 ^ e)
  else float_of_ratio m (10 ^ (- e)).

(** Reads a maximal run of decimal digits: its value, its length, the
    rest. *)
Fixpoint read_digits (acc : Z) (len : Z) (s : string) : Z * Z * string :=
  match s with
  | String c s' =>
      if is_digit c then read_digits (10 * acc + digit_value c) (len + 1) s'
      else (acc, len, s)
  | EmptyString => (acc, len, s)
  end.

(** Reads digits of radix [b] up to the end of the text. *)
Fixpoint read_radix (b : Z) (acc : Z) (s : string) : option Z :=
  match s with
  | EmptyString => Some acc
  | String c s' =>
      match hex_value c with
      | Some v => if v <? b then read_radix b (b * acc + v) s' else None
      | None => None
      end
  end.

(** An optional [ExponentPart] followed by the end of the text. *)
Definition read_exponent (s : string) : option Z :=
  match s with
  | EmptyString => Some 0
  | String c s' =>
      if Ascii.eqb c "e" || Ascii.eqb c "E" then
        let '(neg, s'') :=
          match s' with
          | String "-" t => (true, t)
          | String "+" t => (false, t)
          | _ => (false, s')
          end in
        match read_digits 0 0 s'' with
        | (v, len, EmptyString) =>
            if 0 <? len then Some (if neg then - v else v) else None
        | _ => None
        end
      else None
  end.

(** [StrUnsignedDecimalLiteral]: [Infinity], or digits with an optional
    fraction and exponent; at least one digit is required. *)
Definition read_unsigned (s : string) : option number :=
  if String.eqb s "Infinity" then Some PrimFloat.infinity
  else
    let '(ip, ilen, s1) := read_digits 0 0 s in
    let '(m, flen, s2) :=
      match s1 with
      | String "." t =>
          let '(m, flen, s2) := read_digits ip 0 t in (m, flen, s2)
      | _ => (ip, 0, s1)
      end in
    if 0 <? ilen + flen then
      match read_exponent s2 with
      | Some e => Some (float_of_decimal m (e - flen))
      | None => None
      end
    else None.

(** [NonDecimalIntegerLiteral]: [0x], [0o] or [0b] and at least one digit. *)
Definition read_prefixed (s : string) : option number :=
  match s with
  | String "0" (String p (String c t)) =>
      let radix :=
        if Ascii.eqb p "x" || Ascii.eqb p "X" then Some 16
        else if Ascii.eqb p "o" || Ascii.eqb p "O" then Some 8
        else if Ascii.eqb p "b" || Ascii.eqb p "B" then Some 2
        else None in
      match radix with
      | Some b =>
          match read_radix b 0 (String c t) with
          | Some v => Some (float_of_Z v)
          | None => None
          end
      | None => None
      end
  | _ => None
  end.

(** [Number(s)] on a string: blank text is [+0], a [StringNumericLiteral]
    is its value, anything else is [NaN]. *)
Definition toNumber (s : string) : number :=
  match trim s with
  | EmptyString => zero
  | String c t as lit =>
      match read_prefixed lit with
      | Some v => v
      | None =>
          let '(neg, body) :=
            if Ascii.eqb c "-" then (true, t)
            else if Ascii.eqb c "+" then (false, t)
            else (false, lit) in
          match read_unsigned body with
          | Some v => if neg then PrimFloat.opp v else v
          | None => NaN
          end
      end
  end.

(** [Number(x)] where [x] is a string or [undefined]. *)
Definition Number (x : option string) : number :=
  match x with
  | Some s => toNumber s
  | None => NaN
  end.

(** The decimal text of an integer, as [String(n)] gives it. *)
Definition show_int (n : Z) : string :=
  NilZero.string_of_int (Z.to_int n).

(** *** Numbers as lengths and positions *)







End JS.

(** ** Data model *)

(** A JavaScript [Map] from strings: an association list in insertion order.
    [set] on a present key replaces the value and keeps the key's place. *)
Module JSMap.

Definition t (V : Type) := list (string * V).

Definition empty {V : Type} : t V := [].

Fixpoint set {V : Type} (k : string) (v : V) (m : t V) : t V :=
  match m with
  | [] => [(k, v)]
  | (k', v') :: m' =>
      if String.eqb k' k then (k', v) :: m' else (k', v') :: set k v m'
  end.

Fixpoint get {V : Type} (k : string) (m : t V) : option V :=
  match m with
  | [] => None
  | (k', v') :: m' => if String.eqb k' k then Some v' else get k m'
  end.

Definition keys {V : Type} (m : t V) : list string := map fst m.
Definition values {V : Type} (m : t V) : list V := map snd m.
Definition entries {V : Type} (m : t V) : list (string * V) := m.

End JSMap.

(** A row of the periodic table, as the loader builds it.  A field read from
    a column the row does not have is [undefined] ([None]). *)
Record AtomicMass := {
  Symbol : option string;
  Atomic_Mass : JS.number;
  Element : option string;
  Atomic_Number : JS.number
}.

(** [ComponentItem]: a precursor of the batch. *)
Module Component.
Record t := mk {
  formula : string;
  matrix : JS.number;
  mw : JS.number
}.
End Component.

(** [ProductItem]: a product with its precursor and mole values; [gf] is
    [null] ([None]) until a gravimetric factor has been computed. *)
Module Product.
Record t := mk {
  formula : string;
  mw : JS.number;
  gf : option JS.number;
  precursorFormula : string;
  precursorMoles : JS.number;
  productMoles : JS.number
}.
End Product.

(** [ComponentResult]: a component with its raw quantity; the two optional
    fields are set in the gravimetric-factor view only. *)
Module ComponentResult.
Record t := mk {
  formula : string;
  matrix : JS.number;
  mw : JS.number;
  molQty : JS.number;
  productFormula : option string;
  adjustedWeight : option JS.number
}.
End ComponentResult.

(** [ProductResult]: a product with its raw quantity. *)
Module ProductResult.
Record t := mk {
  item : Product.t;
  molQty : JS.number
}.
End ProductResult.

(** [ElementComposition]: an entry of the composition chart. *)
Record ElementComposition := {
  element : string;
  percentage : JS.number;
  color : string
}.

(** ** [lib/chemistry]: formula parsing and molecular weights *)

Module Chemistry.

Open Scope float_scope.

(** Modelled from the spec: the ordered mapping from element symbol to count
    that the parser of lib/chemistry returns (not among the sources), in
    order of first occurrence. *)
Definition ElementCounts := list (string * JS.number).

(** Modelled from the spec: the ways in which a formula fails to parse
    (lib/chemistry is not among the sources). *)
Inductive ParseError :=
| UnmatchedClose
| UnclosedGroup
| Unrecognized (c : ascii)
| BadNumber (literal : string).

(** Modelled from the spec: the token whose trailing numeric literal is
    still being read, an element symbol or a closed group (lib/chemistry is
    not among the sources). *)
Inductive Pending :=
| NoToken
| ElementToken (symbol : string) (literal : string)
| GroupToken (group : ElementCounts) (literal : string).

(** Modelled from the spec: the numeric literal of the formula grammar (the
    parser of lib/chemistry is not among the sources).  An integer or a
    decimal; an absent literal counts as 1. *)
Definition numeric_literal (lit : string) : option JS.number :=
  match lit with
  | EmptyString => Some 1
  | _ =>
      let '(ip, ilen, rest) := JS.read_digits 0 0 lit in
      if (0 <? ilen)%Z then
        match rest with
        | EmptyString => Some (JS.float_of_decimal ip 0)
        | String "." frac =>
            match JS.read_digits ip 0 frac with
            | (m, flen, EmptyString) =>
                if (0 <? flen)%Z then Some (JS.float_of_decimal m (- flen))
                else None
            | _ => None
            end
        | _ => None
        end
      else None
  end.

(** Modelled from the spec: adding a count into a scope's entry for a symbol
    (lib/chemistry is not among the sources).  The count is summed into an
    entry that exists, and a new entry is appended otherwise. *)
Fixpoint add_count (sym : string) (n : JS.number) (scope : ElementCounts)
  : ElementCounts :=
  match scope with
  | [] => [(sym, n)]
  | (k, v) :: scope' =>
      if String.eqb k sym then (k, v + n) :: scope'
      else (k, v) :: add_count sym n scope'
  end.

(** Modelled from the spec: multiplying every entry of a popped scope by the
    literal that follows the group (lib/chemistry is not among the
    sources). *)
Definition scale (n : JS.number) (group : ElementCounts) : ElementCounts :=
  map (fun kv => (fst kv, snd kv * n)) group.

(** Modelled from the spec: adding each entry of a group into the parent
    scope (lib/chemistry is not among the sources). *)
Definition merge_into (parent group : ElementCounts) : ElementCounts :=
  fold_left (fun acc kv => add_count (fst kv) (snd kv) acc) group parent.

(** Modelled from the spec: closing the pending token, once its literal is
    complete (lib/chemistry is not among the sources). *)
Definition flush (scope : ElementCounts) (p : Pending)
  : ParseError + ElementCounts :=
  match p with
  | NoToken => inr scope
  | ElementToken sym lit =>
      match numeric_literal lit with
      | Some n => inr (add_count sym n scope)
      | None => inl (BadNumber lit)
      end
  | GroupToken group lit =>
      match numeric_literal lit with
      | Some n => inr (merge_into scope (scale n group))
      | None => inl (BadNumber lit)
      end
  end.

(** Modelled from the spec: one more character of a symbol or of a literal
    (lib/chemistry is not among the sources). *)
Definition append_char (s : string) (c : ascii) : string :=
  (s ++ String c EmptyString)%string.

(** Modelled from the spec: the formula parser with its explicit stack of
    count maps (lib/chemistry is not among the sources).  [scope] is the
    current scope and [parents] the enclosing ones. *)
Fixpoint parse_from (s : string) (scope : ElementCounts)
    (parents : list ElementCounts) (p : Pending)
  : ParseError + ElementCounts :=
  match s with
  | EmptyString =>
      match flush scope p with
      | inl e => inl e
      | inr scope' =>
          match parents with
          | [] => inr scope'
          | _ :: _ => inl UnclosedGroup
          end
      end
  | String c s' =>
      if JS.is_upper c then
        match flush scope p with
        | inl e => inl e
        | inr scope' =>
            parse_from s' scope' parents
              (ElementToken (String c EmptyString) EmptyString)
        end
      else if JS.is_lower c then
        match p with
        | ElementToken sym EmptyString =>
            parse_from s' scope parents
              (ElementToken (append_char sym c) EmptyString)
        | _ => inl (Unrecognized c)
        end
      else if JS.is_digit c || Ascii.eqb c "." then
        match p with
        | ElementToken sym lit =>
            parse_from s' scope parents (ElementToken sym (append_char lit c))
        | GroupToken group lit =>
            parse_from s' scope parents (GroupToken group (append_char lit c))
        | NoToken => inl (Unrecognized c)
        end
      else if Ascii.eqb c "(" then
        match flush scope p with
        | inl e => inl e
        | inr scope' => parse_from s' [] (scope' :: parents) NoToken
        end
      else if Ascii.eqb c ")" then
        match flush scope p with
        | inl e => inl e
        | inr scope' =>
            match parents with
            | [] => inl UnmatchedClose
            | parent :: rest =>
                parse_from s' parent rest (GroupToken scope' EmptyString)
            end
        end
      else inl (Unrecognized c)
  end.

(** Modelled from the spec: [parse(formula)] of the FormulaParser
    (lib/chemistry is not among the sources). *)
Definition parse (formula : string) : ParseError + ElementCounts :=
  parse_from formula [] [] NoToken.

(** Modelled from the spec: the test by which the table is searched, the
    symbols being case-sensitive (lib/chemistry is not among the sources). *)
Definition symbol_is (sym : string) (a : AtomicMass) : bool :=
  match Symbol a with
  | Some s => String.eqb s sym
  | None => false
  end.

(** Modelled from the spec: the atomic mass of a symbol, undefined when the
    table has no entry for it (lib/chemistry is not among the sources). *)
Definition atomicMass (sym : string) (atomics : list AtomicMass)
  : option JS.number :=
  match find (symbol_is sym) atomics with
  | Some a => Some (Atomic_Mass a)
  | None => None
  end.

(** Modelled from the spec: the sum of count times atomic mass over the
    parsed entries, undefined as soon as a symbol is unknown
    (lib/chemistry is not among the sources). *)
Fixpoint weigh (counts : ElementCounts) (atomics : list AtomicMass)
    (acc : JS.number) : option JS.number :=
  match counts with
  | [] => Some acc
  | (sym, n) :: counts' =>
      match atomicMass sym atomics with
      | Some m => weigh counts' atomics (acc + n * m)
      | None => None
      end
  end.

(** Modelled from the spec: [molecularWeight(formula, atomics)], the
    MolecularWeightCalculator (lib/chemistry is not among the sources). *)
Definition molecularWeight (formula : string) (atomics : list AtomicMass)
  : option JS.number :=
  match parse formula with
  | inr counts => weigh counts atomics 0
  | inl _ => None
  end.

(** Modelled from the spec: [calculateGF], the GravimetricFactorCalculator
    (lib/chemistry is not among the sources); [None] is the undefined
    result. *)
Definition calculateGF (precursorFormula productFormula : string)
    (precursorMoles productMoles : JS.number) (atomics : list AtomicMass)
  : option JS.number :=
  match molecularWeight precursorFormula atomics,
        molecularWeight productFormula atomics with
  | Some mwPrecursor, Some mwProduct =>
      if precursorMoles <=? 0 then None
      else Some ((productMoles * mwProduct) / (precursorMoles * mwPrecursor))
  | _, _ => None
  end.

(** Modelled from the spec: an input of the BatchWeightNormalizer, a matrix
    percentage, a weight and a mole ratio (lib/chemistry is not among the
    sources). *)
Record Weighted := {
  matrixPercent : JS.number;
  weight : JS.number;
  moleRatio : JS.number
}.

(** Modelled from the spec: the raw quantity of the BatchWeightNormalizer
    (the normalizing functions of lib/chemistry and lib/gfUtils are not
    among the sources). *)
Definition raw (c : Weighted) : JS.number :=
  matrixPercent c * weight c * moleRatio c / 1000.

(** Modelled from the spec: the total of the raw quantities, summed in input
    order (lib/chemistry is not among the sources). *)
Definition total (cs : list Weighted) : JS.number :=
  fold_left (fun acc c => acc + raw c) cs 0.

(** Modelled from the spec: [normalize(components, desiredTotalMass)], with
    its zero-total policy (lib/chemistry is not among the sources). *)
Definition normalize (cs : list Weighted) (desiredTotalMass : JS.number)
  : list JS.number :=
  let t := total cs in
  map (fun c => if t =? 0 then 0 else desiredTotalMass * raw c / t) cs.

End Chemistry.

(** ** [contexts/BatchContext.tsx] *)

Module BatchContext.

Open Scope float_scope.

(** The state the provider holds with [useState]: the table, the components
    and the products with their counts, and the desired batch weight.  The
    inputs of the separate gravimetric-factor calculator and the warning
    text are left out: nothing below reads them.  The counts are held as
    integers, the values that the fields of the form are made for;
    [componentsUpdater] below takes the count of components as the number
    that the setter receives. *)
Record State := {
  atomics : list AtomicMass;
  components : list Component.t;
  numComponents : Z;
  desiredBatch : JS.number;
  products : list Product.t;
  numProducts : Z
}.

(** The state of the first render. *)
Definition initial : State := {|
  atomics := [];
  components :=
    [ Component.mk "CaO" 30 0; Component.mk "La2O3" 10 0;
      Component.mk "H3BO3" 60 0 ];
  numComponents := 3;
  desiredBatch := 5;
  products :=
    [ Product.mk "B2O3" 0 None "H3BO3" 2 1;
      Product.mk "La2O3" 0 None "La2O3" 1 1 ];
  numProducts := 2
|}.

(** *** Loading the table of atomic masses *)

(** One line of the table: the columns are read by position. *)
Definition parseRow (l : string) : AtomicMass :=
  let parts := JS.split "," l in
  {| Symbol := nth_error parts 2;
     Atomic_Mass := JS.Number (nth_error parts 3);
     Element := nth_error parts 1;
     Atomic_Number := JS.Number (nth_error parts 0) |}.

(** The lines after the header. *)
Definition dataLines (txt : string) : list string :=
  JS.sliceFrom 1 (JS.split "010" (JS.trim txt)).

(** The array given to [setAtomics] once the text has been fetched. *)
Definition loadAtomics (txt : string) : list AtomicMass :=
  map parseRow (dataLines txt).

(** [setAtomics(arr)]. *)
Definition setAtomics (arr : list AtomicMass) (st : State) : State :=
  {| atomics := arr; components := components st;
     numComponents := numComponents st; desiredBatch := desiredBatch st;
     products := products st; numProducts := numProducts st |}.

(** *** Effects *)

(** [atomics.length ? molecularWeight(formula, atomics) || 0 : 0]. *)
Definition storedWeight (formula : string) (atomics : list AtomicMass)
  : JS.number :=
  match atomics with
  | [] => 0
  | _ :: _ => JS.opt_or_else (Chemistry.molecularWeight formula atomics) 0
  end.

(** The effect on [atomics]: the weights of all components and products are
    computed again. *)
Definition atomicsEffect (st : State) : State :=
  {| atomics := atomics st;
     components :=
       map (fun c =>
              Component.mk (Component.formula c) (Component.matrix c)
                (storedWeight (Component.formula c) (atomics st)))
           (components st);
     numComponents := numComponents st;
     desiredBatch := desiredBatch st;
     products :=
       map (fun p =>
              Product.mk (Product.formula p)
                (storedWeight (Product.formula p) (atomics st))
                (Product.gf p) (Product.precursorFormula p)
                (Product.precursorMoles p) (Product.productMoles p))
           (products st);
     numProducts := numProducts st |}.

(** The component that fills a new place: [{ formula: "", matrix: 0, mw: 0 }]. *)
Definition emptyComponent : Component.t := Component.mk "" 0 0.

(** The updater given to [setComponents] by the effect on
    [numComponents], for a count that is an integer. *)
Definition resizeComponents (numComponents : Z) (prev : list Component.t)
  : list Component.t :=
  if (Z.of_nat (List.length prev) <? numComponents)%Z then
    prev ++
    repeat emptyComponent
      (Z.to_nat (numComponents - Z.of_nat (List.length prev)))
  else JS.sliceTo numComponents prev.



(** *** Handlers *)

(** [updated[i] = f(updated[i])] on a copy of the array, for an index
    inside the array.  An index outside the array leaves the list as it is:
    the forms only call the handlers at the indices of the arrays they
    render, and JavaScript's extension of the array is not modelled. *)
Fixpoint update {A : Type} (i : nat) (f : A -> A) (l : list A) : list A :=
  match l, i with
  | [], _ => []
  | x :: l', O => f x :: l'
  | x :: l', S i' => x :: update i' f l'
  end.

(** The field that a change of a component addresses, with its new value. *)
Inductive ComponentField :=
| FormulaField (value : string)
| MatrixField (value : JS.number).

(** [handleComponentChange(i, field)(value)] for an index [i] of the list
    of components, which is how the form calls it.  A new formula also
    becomes the precursor formula of the product at the same index. *)
Definition handleComponentChange (i : nat) (field : ComponentField)
    (st : State) : State :=
  match field with
  | FormulaField value =>
      let mw :=
        JS.opt_or_else (Chemistry.molecularWeight value (atomics st)) 0 in
      {| atomics := atomics st;
         components :=
           update i (fun c => Component.mk value (Component.matrix c) mw)
             (components st);
         numComponents := numComponents st;
         desiredBatch := desiredBatch st;
         products :=
           update i
             (fun p =>
                Product.mk (Product.formula p) (Product.mw p) (Product.gf p)
                  value (Product.precursorMoles p) (Product.productMoles p))
             (products st);
         numProducts := numProducts st |}
  | MatrixField value =>
      {| atomics := atomics st;
         components :=
           update i (fun c =>
                       Component.mk (Component.formula c) value
                         (Component.mw c))
             (components st);
         numComponents := numComponents st;
         desiredBatch := desiredBatch st;
         products := products st;
         numProducts := numProducts st |}
  end.

(** The field that a change of a product addresses, with its new value. *)
Inductive ProductField :=
| ProductFormulaField (value : string)
| PrecursorFormulaField (value : string)
| PrecursorMolesField (value : JS.number)
| ProductMolesField (value : JS.number).

(** The product with the addressed field set; a new formula brings its
    stored weight. *)
Definition setProductField (field : ProductField) (atomics : list AtomicMass)
    (p : Product.t) : Product.t :=
  match field with
  | ProductFormulaField value =>
      Product.mk value
        (JS.opt_or_else (Chemistry.molecularWeight value atomics) 0)
        (Product.gf p) (Product.precursorFormula p)
        (Product.precursorMoles p) (Product.productMoles p)
  | PrecursorFormulaField value =>
      Product.mk (Product.formula p) (Product.mw p) (Product.gf p) value
        (Product.precursorMoles p) (Product.productMoles p)
  | PrecursorMolesField value =>
      Product.mk (Product.formula p) (Product.mw p) (Product.gf p)
        (Product.precursorFormula p) value (Product.productMoles p)
  | ProductMolesField value =>
      Product.mk (Product.formula p) (Product.mw p) (Product.gf p)
        (Product.precursorFormula p) (Product.precursorMoles p) value
  end.

(** The gravimetric factor of a product is computed again when both of its
    formulas are present. *)
Definition refreshGF (atomics : list AtomicMass) (p : Product.t)
  : Product.t :=
  if JS.nonempty (Product.precursorFormula p)
     && JS.nonempty (Product.formula p)
  then
    Product.mk (Product.formula p) (Product.mw p)
      (Chemistry.calculateGF (Product.precursorFormula p) (Product.formula p)
         (Product.precursorMoles p) (Product.productMoles p) atomics)
      (Product.precursorFormula p) (Product.precursorMoles p)
      (Product.productMoles p)
  else p.

(** [handleProductChange(i, field)(value)] for an index [i] of the list of
    products. *)
Definition handleProductChange (i : nat) (field : ProductField) (st : State)
  : State :=
  {| atomics := atomics st;
     components := components st;
     numComponents := numComponents st;
     desiredBatch := desiredBatch st;
     products :=
       update i
         (fun p => refreshGF (atomics st) (setProductField field (atomics st) p))
         (products st);
     numProducts := numProducts st |}.

(** *** Values derived at each render *)

(** [precursorMolesMap]: precursor formula to precursor moles; a later
    product overwrites an earlier one with the same precursor. *)
Definition precursorMolesMap (products : list Product.t)
  : JSMap.t JS.number :=
  fold_left
    (fun m p =>
       if JS.nonempty (Product.precursorFormula p)
       then JSMap.set (Product.precursorFormula p) (Product.precursorMoles p) m
       else m)
    products JSMap.empty.

(** [productMolesMap]: product formula to product moles. *)
Definition productMolesMap (products : list Product.t) : JSMap.t JS.number :=
  fold_left
    (fun m p =>
       if JS.nonempty (Product.formula p)
       then JSMap.set (Product.formula p) (Product.productMoles p) m
       else m)
    products JSMap.empty.

(** [molesMap.get(formula) || 1]. *)
Definition molesOf (molesMap : JSMap.t JS.number) (formula : string)
  : JS.number :=
  JS.opt_or_else (JSMap.get formula molesMap) 1.

(** [compResults]: each component with its raw quantity. *)
Definition compResults (components : list Component.t)
    (products : list Product.t) : list ComponentResult.t :=
  map (fun c =>
         let precursorMoles :=
           molesOf (precursorMolesMap products) (Component.formula c) in
         ComponentResult.mk (Component.formula c) (Component.matrix c)
           (Component.mw c)
           ((Component.matrix c * Component.mw c * precursorMoles) / 1000)
           None None)
      components.

(** [components.find(c => c.formula === formula)]. *)
Definition findComponent (formula : string) (components : list Component.t)
  : option Component.t :=
  find (fun c => String.eqb (Component.formula c) formula) components.

(** [components.some(c => c.formula === formula)]. *)
Definition someComponent (formula : string) (components : list Component.t)
  : bool :=
  existsb (fun c => String.eqb (Component.formula c) formula) components.

(** The matrix value of the precursor of a product, 0 when no component has
    that formula. *)
Definition precursorMatrix (components : list Component.t) (p : Product.t)
  : JS.number :=
  match findComponent (Product.precursorFormula p) components with
  | Some precursorComp => Component.matrix precursorComp
  | None => 0
  end.

(** The molecular weight of a product with its gravimetric factor applied:
    the factor is used when it is not [null] and both mole values are
    positive. *)
Definition effectiveMW (p : Product.t) : JS.number :=
  match Product.gf p with
  | Some gf =>
      if (0 <? Product.productMoles p) && (0 <? Product.precursorMoles p)
      then Product.mw p * gf
      else Product.mw p
  | None => Product.mw p
  end.

(** [productResults]: each product with its raw quantity. *)
Definition productResults (components : list Component.t)
    (products : list Product.t) : list ProductResult.t :=
  map (fun p =>
         ProductResult.mk p
           ((precursorMatrix components p * effectiveMW p
             * Product.productMoles p) / 1000))
      products.

(** [productTotalWeight]. *)
Definition productTotalWeight (components : list Component.t)
    (products : list Product.t) : JS.number :=
  fold_left (fun sum p => sum + ProductResult.molQty p)
    (productResults components products) 0.

(** [productComponents]: the products in the shape of components, for the
    normalizer. *)
Definition productComponents (components : list Component.t)
    (products : list Product.t) : list Component.t :=
  map (fun r =>
         let p := ProductResult.item r in
         Component.mk (Product.formula p)
           (JS.opt_or_else
              (option_map Component.matrix
                 (findComponent (Product.precursorFormula p) components))
              0)
           (match Product.gf p with
            | Some gf => Product.mw p * gf
            | None => Product.mw p
            end))
      (productResults components products).

(** The value stored in [precursorGfMap] for a precursor formula. *)
Record ProductInfo := {
  info_gf : JS.number;
  info_productFormula : string;
  info_productMW : JS.number
}.

(** The test under which a product enters [precursorGfMap]. *)
Definition hasGF (components : list Component.t) (p : Product.t) : bool :=
  JS.nonempty (Product.precursorFormula p)
  && JS.nonempty (Product.formula p)
  && (match Product.gf p with Some _ => true | None => false end)
  && someComponent (Product.precursorFormula p) components.

(** [hasValidProductsWithGF]. *)
Definition hasValidProductsWithGF (components : list Component.t)
    (products : list Product.t) : bool :=
  existsb (hasGF components) products.

(** [precursorGfMap]: precursor formula to the data of its product. *)
Definition precursorGfMap (components : list Component.t)
    (products : list Product.t) : JSMap.t ProductInfo :=
  fold_left
    (fun m p =>
       match Product.gf p with
       | Some gf =>
           if hasGF components p
           then JSMap.set (Product.precursorFormula p)
                  {| info_gf := gf;
                     info_productFormula := Product.formula p;
                     info_productMW := Product.mw p |} m
           else m
       | None => m
       end)
    products JSMap.empty.

(** An element of [componentsWithGF]. *)
Record ComponentWithGF := {
  precursor : string;
  cgf_matrix : JS.number;
  molecularWeight : JS.number;
  cgf_gf : JS.number
}.

(** [componentsWithGF]: the components as the gravimetric-factor
    normalizer takes them. *)
Definition componentsWithGF (components : list Component.t)
    (products : list Product.t) : list ComponentWithGF :=
  map (fun c =>
         let productInfo :=
           JSMap.get (Component.formula c) (precursorGfMap components products) in
         {| precursor := Component.formula c;
            cgf_matrix := Component.matrix c;
            molecularWeight :=
              JS.opt_or_else (option_map info_productMW productInfo)
                (Component.mw c);
            cgf_gf := JS.opt_or_else (option_map info_gf productInfo) 1 |})
      components.

(** Modelled from the spec: an element of the result of the normalizing
    functions of lib/chemistry and lib/gfUtils (not among the sources), of
    which the provider reads the formula and the weight. *)
Record BatchWeight := {
  bw_formula : string;
  bw_weight : JS.number
}.

(** Modelled from the spec: [calculateTotalBatchWeight] of lib/chemistry,
    which is not among the sources: the total of the raw quantities of the
    normalizer, with the mole ratio of each component read from the map. *)
Definition calculateTotalBatchWeight (components : list Component.t)
    (molesMap : JSMap.t JS.number) : JS.number :=
  Chemistry.total
    (map (fun c =>
            {| Chemistry.matrixPercent := Component.matrix c;
               Chemistry.weight := Component.mw c;
               Chemistry.moleRatio := molesOf molesMap (Component.formula c) |})
         components).

(** Modelled from the spec: [calculateAdjustedBatchWeights] of
    lib/chemistry, which is not among the sources: each raw quantity scaled
    to the desired batch by the given total, 0 when that total is 0. *)
Definition calculateAdjustedBatchWeights (components : list Component.t)
    (totalWeight desiredBatch : JS.number) (molesMap : JSMap.t JS.number)
  : list BatchWeight :=
  map (fun c =>
         let r :=
           Chemistry.raw
             {| Chemistry.matrixPercent := Component.matrix c;
                Chemistry.weight := Component.mw c;
                Chemistry.moleRatio := molesOf molesMap (Component.formula c) |} in
         {| bw_formula := Component.formula c;
            bw_weight :=
              if totalWeight =? 0 then 0 else desiredBatch * r / totalWeight |})
      components.

(** Modelled from the spec: the normalizer input of an element of
    [componentsWithGF] in lib/gfUtils (not among the sources): its weight is
    the molecular weight times the factor, its mole ratio is 1. *)
Definition weightedWithGF (c : ComponentWithGF) : Chemistry.Weighted :=
  {| Chemistry.matrixPercent := cgf_matrix c;
     Chemistry.weight := molecularWeight c * cgf_gf c;
     Chemistry.moleRatio := 1 |}.

(** Modelled from the spec: [calculateTotalWeightWithGF] of lib/gfUtils,
    which is not among the sources: the total of the raw quantities with
    each weight multiplied by its gravimetric factor. *)
Definition calculateTotalWeightWithGF (cs : list ComponentWithGF)
  : JS.number :=
  Chemistry.total (map weightedWithGF cs).

(** Modelled from the spec: [calculateBatchWeights] of lib/gfUtils, which is
    not among the sources: the same scaling over the factor-adjusted raw
    quantities. *)
Definition calculateBatchWeights (cs : list ComponentWithGF)
    (totalWeight desiredBatch : JS.number) : list BatchWeight :=
  map (fun c =>
         {| bw_formula := precursor c;
            bw_weight :=
              if totalWeight =? 0 then 0
              else desiredBatch * Chemistry.raw (weightedWithGF c) / totalWeight |})
      cs.

(** [totalWeight] and [weightPercents] of the precursor view. *)
Definition totalWeight (st : State) : JS.number :=
  calculateTotalBatchWeight (components st) (precursorMolesMap (products st)).

Definition weightPercents (st : State) : list JS.number :=
  map bw_weight
    (calculateAdjustedBatchWeights (components st) (totalWeight st)
       (desiredBatch st) (precursorMolesMap (products st))).

(** [productWeightPercents] of the product view. *)
Definition productWeightPercents (st : State) : list JS.number :=
  map bw_weight
    (calculateAdjustedBatchWeights
       (productComponents (components st) (products st))
       (productTotalWeight (components st) (products st))
       (desiredBatch st) (productMolesMap (products st))).

(** [newGfBatchWeights]. *)
Definition newGfBatchWeights (st : State) : list BatchWeight :=
  let cs := componentsWithGF (components st) (products st) in
  calculateBatchWeights cs (calculateTotalWeightWithGF cs) (desiredBatch st).

(** The result of a component in the gravimetric-factor view, when some
    product carries a usable factor. *)
Definition gfResult (st : State) (c : ComponentResult.t)
  : ComponentResult.t :=
  match JSMap.get (ComponentResult.formula c)
          (precursorGfMap (components st) (products st)) with
  | Some productInfo =>
      let matchingGfWeight :=
        find (fun item => String.eqb (bw_formula item) (ComponentResult.formula c))
          (newGfBatchWeights st) in
      ComponentResult.mk (ComponentResult.formula c) (ComponentResult.matrix c)
        (info_productMW productInfo)
        ((ComponentResult.matrix c * info_productMW productInfo) / 1000)
        (Some (info_productFormula productInfo))
        (Some (JS.opt_or_else (option_map bw_weight matchingGfWeight) 0))
  | None => c
  end.

(** [gfResults]. *)
Definition gfResults (st : State) : list ComponentResult.t :=
  if hasValidProductsWithGF (components st) (products st)
  then map (gfResult st) (compResults (components st) (products st))
  else compResults (components st) (products st).

(** [gfWeightPercents]. *)
Definition gfWeightPercents (st : State) : list JS.number :=
  if hasValidProductsWithGF (components st) (products st)
  then map bw_weight (newGfBatchWeights st)
  else weightPercents st.

(** *** Composition data for the charts *)

(** One round of the loop of [hashCode]:
    [hash = ((hash << 5) - hash) + str.charCodeAt(i); hash = hash & hash].
    All the values are integers below 2^53, so the arithmetic is exact. *)
Definition hashStep (hash : Z) (c : ascii) : Z :=
  let hash :=
    (JS.toInt32 (Z.shiftl (JS.toInt32 hash) 5) - hash + JS.charCode c)%Z in
  Z.land (JS.toInt32 hash) (JS.toInt32 hash).

Fixpoint hashFrom (hash : Z) (str : string) : Z :=
  match str with
  | EmptyString => hash
  | String c str' => hashFrom (hashStep hash c) str'
  end.

(** [hashCode(str)]. *)
Definition hashCode (str : string) : Z := hashFrom 0 str.

(** [Math.abs(hashCode(compound) % 360)]; the remainder has the sign of the
    hash. *)
Definition hue (compound : string) : Z :=
  Z.abs (Z.rem (hashCode compound) 360).

(** The colour of a compound: [hsl(hue, 70%, 60%)]. *)
Definition colorOf (compound : string) : string :=
  ("hsl(" ++ JS.show_int (hue compound) ++ ", 70%, 60%)")%string.

(** The test of the loop: a component is kept when its formula is not empty
    and its matrix value is truthy. *)
Definition retained (comp : Component.t) : bool :=
  JS.nonempty (Component.formula comp) && JS.truthy (Component.matrix comp).

(** [compoundMap] after the loop over the components. *)
Definition compoundMap (components : list Component.t) : JSMap.t JS.number :=
  fold_left
    (fun m comp =>
       if retained comp
       then JSMap.set (Component.formula comp) (Component.matrix comp) m
       else m)
    components JSMap.empty.

(** [values.reduce((sum, val) => sum + val, 0)]. *)
Definition sum (values : list JS.number) : JS.number :=
  fold_left (fun sum val => sum + val) values 0.

(** [generateCompositionData()]. *)
Definition generateCompositionData (components : list Component.t)
  : list ElementComposition :=
  let m := compoundMap components in
  let total := sum (JSMap.values m) in
  map (fun entry =>
         {| element := fst entry;
            percentage := (snd entry / total) * 100;
            color := colorOf (fst entry) |})
      (JSMap.entries m).

(** *** The effect on the number of products and on the components *)

(** [a.map((x, index) => f(x, index))], the indices counted from [i]. *)
Fixpoint mapiFrom {A B : Type} (i : nat) (f : A -> nat -> B) (l : list A)
  : list B :=
  match l with
  | [] => []
  | x :: l' => f x i :: mapiFrom (S i) f l'
  end.

(** [a.map((x, index) => f(x, index))]. *)
Definition mapi {A B : Type} (f : A -> nat -> B) (l : list A) : list B :=
  mapiFrom 0 f l.

(** The product that fills a new place. *)
Definition emptyProduct : Product.t := Product.mk "" 0 None "" 1 1.

(** The first step of the updater: the array gets [numProducts] places. *)
Definition resizeProducts (numProducts : Z) (prev : list Product.t)
  : list Product.t :=
  if (Z.of_nat (List.length prev) <? numProducts)%Z then
    prev ++
    repeat emptyProduct (Z.to_nat (numProducts - Z.of_nat (List.length prev)))
  else if (numProducts <? Z.of_nat (List.length prev))%Z then
    JS.sliceTo numProducts prev
  else prev.

(** The second step, for the product at [index]: when the component at the
    same index has a formula, and the product names no precursor or one that
    is the formula of no component, the formula of that component becomes its
    precursor formula. *)
Definition linkPrecursor (components : list Component.t) (prod : Product.t)
    (index : nat) : Product.t :=
  match nth_error components index with
  | Some comp =>
      if JS.nonempty (Component.formula comp) then
        if negb (JS.nonempty (Product.precursorFormula prod))
           || negb (someComponent (Product.precursorFormula prod) components)
        then
          Product.mk (Product.formula prod) (Product.mw prod) (Product.gf prod)
            (Component.formula comp) (Product.precursorMoles prod)
            (Product.productMoles prod)
        else prod
      else prod
  | None => prod
  end.

(** The updater given to [setProducts] by the effect on [numProducts] and
    [components]. *)
Definition productsUpdater (numProducts : Z) (components : list Component.t)
    (prev : list Product.t) : list Product.t :=
  mapi (linkPrecursor components) (resizeProducts numProducts prev).

(** The effect on [numProducts] and [components]. *)
Definition productsEffect (st : State) : State :=
  {| atomics := atomics st;
     components := components st;
     numComponents := numComponents st;
     desiredBatch := desiredBatch st;
     products :=
       productsUpdater (numProducts st) (components st) (products st);
     numProducts := numProducts st |}.

(** *** The warning on the matrix values *)

(** [totalMatrix]: the sum of the matrix values, a value that is 0 or NaN
    counting as 0. *)
Definition totalMatrix (components : list Component.t) : JS.number :=
  fold_left (fun acc item => acc + JS.or_else (Component.matrix item) 0)
    components 0.

(** The text that the effect on [totalMatrix] gives to [setWarning]. *)
Definition warningFor (totalMatrix : JS.number) : string :=
  if (0.001 <? PrimFloat.abs (totalMatrix - 100)) && (0 <? totalMatrix)
  then "Matrix values do not sum to 100%. Please adjust manually."
  else "".

(** *** The count of components as a number *)



End BatchContext.

(** ** [components/forms/ElementAutoSuggest.tsx] *)

Module ElementAutoSuggest.

(** [toLowerCase] on a code unit below 256: the letters A to Z and the
    capital letters of Latin-1 (0xC0 to 0xDE without the sign 0xD7) move up by
    32. *)
Definition toLowerChar (c : ascii) : ascii :=
  let n := JS.charCode c in
  if ((65 <=? n) && (n <=? 90))
     || ((192 <=? n) && (n <=? 222) && negb (n =? 215))
  then ascii_of_N (Z.to_N (n + 32))
  else c.

(** [s.toLowerCase()]. *)
Fixpoint toLowerCase (s : string) : string :=
  match s with
  | EmptyString => EmptyString
  | String c s' => String (toLowerChar c) (toLowerCase s')
  end.

(** [s.startsWith(p)]. *)
Fixpoint startsWith (s p : string) : bool :=
  match p with
  | EmptyString => true
  | String b p' =>
      match s with
      | EmptyString => false
      | String a s' => Ascii.eqb a b && startsWith s' p'
      end
  end.

(** A text of the letters a to z only. *)
Fixpoint allLower (s : string) : bool :=
  match s with
  | EmptyString => true
  | String c s' => JS.is_lower c && allLower s'
  end.

(** The match of [/[A-Z][a-z]*$/] in a text: the text before the match and
    the match.  The search goes from left to right; at a position the match
    succeeds when the character is a capital and all that follows, up to the
    end, is in a to z. *)
Fixpoint matchToken (s : string) : option (string * string) :=
  match s with
  | EmptyString => None
  | String c s' =>
      if JS.is_upper c && allLower s' then Some (EmptyString, s)
      else
        match matchToken s' with
        | Some (before, m) => Some (String c before, m)
        | None => None
        end
  end.

(** [lastToken]: [trimmed.match(/[A-Z][a-z]*$/)?.[0] ?? ""]. *)
Definition lastToken (val : string) : string :=
  match matchToken (JS.trim val) with
  | Some (_, m) => m
  | None => EmptyString
  end.

(** [/^[A-Z]/.test(s)]. *)
Definition startsUpper (s : string) : bool :=
  match s with
  | String c _ => JS.is_upper c
  | EmptyString => false
  end.

(** [showSuggestions]. *)
Definition showSuggestions (val : string) : bool :=
  JS.nonempty (lastToken val) && startsUpper (lastToken val).

(** The test of the filter on an entry whose symbol is [sym]. *)
Definition matches (token sym : string) (a : AtomicMass) : bool :=
  startsWith (toLowerCase sym) (toLowerCase token)
  || match Element a with
     | Some e => startsWith (toLowerCase e) (toLowerCase token)
     | None => false
     end.

(** [atomics.filter(a => a.Symbol.toLowerCase()... || a.Element?....)].
    Reading [toLowerCase] of an undefined symbol throws a TypeError, which is
    [None] here. *)
Fixpoint filterMatches (token : string) (atomics : list AtomicMass)
  : option (list AtomicMass) :=
  match atomics with
  | [] => Some []
  | a :: rest =>
      match Symbol a with
      | None => None
      | Some sym =>
          match filterMatches token rest with
          | Some l => Some (if matches token sym a then a :: l else l)
          | None => None
          end
      end
  end.

(** [suggestions]: at most ten entries, and none unless the text ends with
    a token; [None] when the filter throws. *)
Definition suggestions (val : string) (atomics : list AtomicMass)
  : option (list AtomicMass) :=
  if showSuggestions val && negb (Nat.eqb (List.length atomics) 0) then
    match filterMatches (lastToken val) atomics with
    | Some l => Some (JS.sliceTo 10 l)
    | None => None
    end
  else Some [].

(** The replacement text of [String.prototype.replace] for a pattern
    without groups: [$$] is a dollar sign, [$&] the match, [$`] the text
    before it and [$'] the text after it; any other dollar sign stands for
    itself. *)
Fixpoint substitute (replacement matched before after : string) : string :=
  match replacement with
  | EmptyString => EmptyString
  | String c rest =>
      if Ascii.eqb c "$" then
        match rest with
        | String d rest' =>
            if Ascii.eqb d "$" then
              String "$" (substitute rest' matched before after)
            else if Ascii.eqb d "&" then
              (matched ++ substitute rest' matched before after)%string
            else if Ascii.eqb d "`" then
              (before ++ substitute rest' matched before after)%string
            else if Ascii.eqb d "'" then
              (after ++ substitute rest' matched before after)%string
            else String c (substitute rest matched before after)
        | EmptyString => String c EmptyString
        end
      else String c (substitute rest matched before after)
  end.

(** [val.replace(/[A-Z][a-z]*$/, replacement)]. *)
Definition replaceToken (val replacement : string) : string :=
  match matchToken val with
  | Some (before, m) =>
      (before ++ substitute replacement m before EmptyString)%string
  | None => val
  end.

(** [pick(idx)]: the text given to [onChange], or nothing when there is no
    suggestion at [idx] (or the suggestions cannot be computed). *)
Definition pick (idx : nat) (val : string) (atomics : list AtomicMass)
  : option string :=
  match suggestions val atomics with
  | Some l =>
      match nth_error l idx with
      | Some a =>
          match Symbol a with
          | Some sym =>
              if JS.nonempty (lastToken val) then Some (replaceToken val sym)
              else Some sym
          | None => None
          end
      | None => None
      end
  | None => None
  end.

(** The keys that the input handles. *)
Inductive Key :=
| ArrowDown
| ArrowUp
| Enter
| Escape
| OtherKey.

(** The highlight after [onKeyDown] on a list of [n] suggestions: the arrows
    move it within the list, Enter on a highlighted suggestion picks it and
    clears the highlight, and nothing happens without suggestions. *)
Definition onKeyDown (n : Z) (key : Key) (highlight : Z) : Z :=
  if (n =? 0)%Z then highlight
  else
    match key with
    | ArrowDown => Z.min (highlight + 1) (n - 1)
    | ArrowUp => Z.max (highlight - 1) 0
    | Enter =>
        if (0 <=? highlight)%Z && (highlight <? n)%Z then (-1)%Z else highlight
    | Escape => highlight
    | OtherKey => highlight
    end.

End ElementAutoSuggest.

(** ** Reference functions

    The functions in which the statements below describe the results of the
    engine. *)

(** The elements of a list, each at its first occurrence only. *)
Fixpoint firstOccurrences (l : list string) : list string :=
  match l with
  | [] => []
  | x :: l' =>
      x :: filter (fun y => negb (String.eqb y x)) (firstOccurrences l')
  end.

(** Membership of a key in a list of keys. *)
Definition mem (k : string) (ks : list string) : bool :=
  existsb (String.eqb k) ks.

(** The last element of a list that passes a test. *)
Fixpoint lastWith {A : Type} (test : A -> bool) (l : list A) : option A :=
  match l with
  | [] => None
  | x :: l' =>
      match lastWith test l' with
      | Some y => Some y
      | None => if test x then Some x else None
      end
  end.

(** The loop that fills a [Map]: every element that passes the test sets its
    key to its value. *)
Definition collect {A V : Type} (test : A -> bool) (key : A -> string)
    (val : A -> V) (l : list A) (m : JSMap.t V) : JSMap.t V :=
  fold_left (fun m x => if test x then JSMap.set (key x) (val x) m else m) l m.

(** The components that enter the composition data. *)
Definition keptComponents (cs : list Component.t) : list Component.t :=
  filter BatchContext.retained cs.

(** Their formulas, each once, in order of first occurrence. *)
Definition keptFormulas (cs : list Component.t) : list string :=
  firstOccurrences (map Component.formula (keptComponents cs)).

(** The matrix value of the last kept component with a formula. *)
Definition lastMatrix (cs : list Component.t) (f : string) : JS.number :=
  match lastWith (fun c => String.eqb (Component.formula c) f)
          (keptComponents cs) with
  | Some c => Component.matrix c
  | None => 0%float
  end.

(** The product matched to a formula: the last product that names the
    formula as its (non-empty) precursor formula. *)
Definition matchedProduct (formula : string) (products : list Product.t)
  : option Product.t :=
  lastWith (fun p => JS.nonempty (Product.precursorFormula p)
                     && String.eqb (Product.precursorFormula p) formula)
    products.

(** The mole ratio of a formula: the precursor moles of the matched product
    when that is a usable number, and 1 otherwise. *)
Definition moleRatio (formula : string) (products : list Product.t)
  : JS.number :=
  match matchedProduct formula products with
  | Some p =>
      if JS.truthy (Product.precursorMoles p) then Product.precursorMoles p
      else 1%float
  | None => 1%float
  end.

(** The text whose pieces around a separator are the given ones. *)
Fixpoint join (sep : ascii) (pieces : list string) : string :=
  match pieces with
  | [] => EmptyString
  | [p] => p
  | p :: rest => (p ++ String sep (join sep rest))%string
  end.

(** A text without a given character. *)
Fixpoint lacks (c : ascii) (s : string) : bool :=
  match s with
  | EmptyString => true
  | String c' s' => negb (Ascii.eqb c' c) && lacks c s'
  end.

Definition newline : ascii := "010"%char.

(** A well-formed row of the table: four columns or more, a symbol, and
    numbers in the columns of the atomic number and of the atomic mass. *)
Definition wellFormedRow (l : string) : bool :=
  match JS.split "," l with
  | n :: _ :: sym :: mass :: _ =>
      JS.nonempty sym
      && negb (PrimFloat.is_nan (JS.toNumber n))
      && negb (PrimFloat.is_nan (JS.toNumber mass))
  | _ => false
  end.

(** A table of two elements with a broken line between them. *)
Definition brokenTable : string :=
  join newline
    [ "AtomicNumber,Element,Symbol,AtomicMass"; "1,Hydrogen,H,1.008"; "oops";
      "8,Oxygen,O,15.999"; "" ].

(** The product that supplies the gravimetric factor of a formula: the last
    product with a factor and both formulas that names the formula, the
    formula of some component, as its precursor. *)
Definition gfProduct (components : list Component.t) (formula : string)
    (products : list Product.t) : option Product.t :=
  lastWith (fun p => BatchContext.hasGF components p
                     && String.eqb (Product.precursorFormula p) formula)
    products.

(** The entry of [precursorGfMap] that a product gives. *)
Definition infoOf (p : Product.t) : BatchContext.ProductInfo :=
  {| BatchContext.info_gf :=
       match Product.gf p with Some gf => gf | None => 0%float end;
     BatchContext.info_productFormula := Product.formula p;
     BatchContext.info_productMW := Product.mw p |}.

(** A table of five elements, as the loader reads it. *)
Definition sampleTable : string :=
  join newline
    [ "AtomicNumber,Element,Symbol,AtomicMass"; "1,Hydrogen,H,1.008";
      "5,Boron,B,10.811"; "8,Oxygen,O,15.999"; "20,Calcium,Ca,40.078";
      "57,Lanthanum,La,138.90547" ].

(** The default batch once the table is loaded and the weights are
    computed. *)
Definition loaded : BatchContext.State :=
  BatchContext.atomicsEffect
    (BatchContext.setAtomics (BatchContext.loadAtomics sampleTable)
       BatchContext.initial).

(** A batch of one precursor A (weight 10) and its product B (weight 30),
    two moles of B for one mole of A: the gravimetric factor is
    [2 * 30 / (1 * 10) = 6]. *)
Definition withFactor : BatchContext.State :=
  {| BatchContext.atomics :=
       [ {| Symbol := Some "A"; Atomic_Mass := 10%float;
            Element := Some "Aium"; Atomic_Number := 1%float |};
         {| Symbol := Some "B"; Atomic_Mass := 30%float;
            Element := Some "Bium"; Atomic_Number := 2%float |} ];
     BatchContext.components := [ Component.mk "A" 50%float 10%float ];
     BatchContext.numComponents := 1;
     BatchContext.desiredBatch := 5%float;
     BatchContext.products :=
       [ Product.mk "B" 30%float (Some 6%float) "A" 1%float 2%float ];
     BatchContext.numProducts := 1 |}.

(** A text made of the characters of a numeric literal only. *)
Fixpoint literalChars (s : string) : bool :=
  match s with
  | EmptyString => true
  | String c s' => (JS.is_digit c || Ascii.eqb c ".") && literalChars s'
  end.


(** The loaded batch after the formula of its first component is changed to
    one with symbols that the table does not have. *)
Definition withUnknown : BatchContext.State :=
  BatchContext.handleComponentChange 0 (BatchContext.FormulaField "NaCl") loaded.

(** No symbol occurs twice in the group of a pending token. *)
Definition pendingNoDup (p : Chemistry.Pending) : Prop :=
  match p with
  | Chemistry.GroupToken group _ => NoDup (JSMap.keys group)
  | _ => True
  end.

(** The hash of a text without the wrap to 32 bits: the polynomial in 31 of
    its code units. *)
Fixpoint hashPolyFrom (h : Z) (str : string) : Z :=
  match str with
  | EmptyString => h
  | String c str' => hashPolyFrom (31 * h + JS.charCode c) str'
  end.

Definition hashPoly (str : string) : Z := hashPolyFrom 0 str.


(** * Properties *)

Import BatchContext.

(** ** Resizing the list of components *)

Section Resize.

Variable prev : list Component.t.
Variable n : Z.
Hypothesis n_nonneg : (0 <= n)%Z.






End Resize.

(** ** Integers as numbers

    The count of components reaches the provider as a number.  An integer
    from 0 below [2^53] is a number exactly, and on such numbers the
    comparison and the difference of the effect are those of the
    integers. *)

Section IntegerFloats.

Local Open Scope Z_scope.





















End IntegerFloats.




(** ** Composition colours *)

Lemma toInt32_range (z : Z) : (- 2 ^ 31 <= JS.toInt32 z < 2 ^ 31)%Z.
Proof.
  unfold JS.toInt32.
  pose proof (Z.mod_pos_bound (z + 2 ^ 31) (2 ^ 32) eq_refl) as Hb.
  set (r := ((z + 2 ^ 31) mod 2 ^ 32)%Z) in *.
  change (2 ^ 32)%Z with (2 * 2 ^ 31)%Z in Hb.
  lia.
Qed.

Lemma toInt32_small (z : Z) :
  (- 2 ^ 31 <= z < 2 ^ 31)%Z -> JS.toInt32 z = z.
Proof.
  intros Hz. unfold JS.toInt32.
  rewrite Z.mod_small; [ lia | ].
  change (2 ^ 32)%Z with (2 * 2 ^ 31)%Z. lia.
Qed.

(** Every round of the hash leaves a signed 32-bit integer. *)
Lemma hashStep_int32 (hash : Z) (c : ascii) :
  (- 2 ^ 31 <= hashStep hash c < 2 ^ 31)%Z.
Proof.
  unfold hashStep. rewrite Z.land_diag. apply toInt32_range.
Qed.

Lemma hashFrom_int32 (str : string) :
  forall hash, (- 2 ^ 31 <= hash < 2 ^ 31)%Z ->
  (- 2 ^ 31 <= hashFrom hash str < 2 ^ 31)%Z.
Proof.
  induction str as [ | c str IH]; intros hash Hh; cbn [hashFrom].
  - exact Hh.
  - apply IH, hashStep_int32.
Qed.

Lemma hashCode_int32 (str : string) :
  (- 2 ^ 31 <= hashCode str < 2 ^ 31)%Z.
Proof. apply hashFrom_int32. lia. Qed.

(** On signed 32-bit values a round is [31 * hash + c] wrapped to 32 bits. *)
Lemma hashStep_31 (hash : Z) (c : ascii) :
  (- 2 ^ 31 <= hash < 2 ^ 31)%Z ->
  hashStep hash c = JS.toInt32 (31 * hash + JS.charCode c).
Proof.
  intros Hh. unfold hashStep.
  rewrite Z.land_diag, (toInt32_small hash Hh), Z.shiftl_mul_pow2 by discriminate.
  unfold JS.toInt32. f_equal.
  set (k := (2 ^ 31)%Z). set (m := (2 ^ 32)%Z).
  replace ((hash * 2 ^ 5 + k) mod m - k - hash + JS.charCode c + k)%Z
    with ((hash * 2 ^ 5 + k) mod m + (JS.charCode c - hash))%Z by lia.
  rewrite Zplus_mod_idemp_l. f_equal. lia.
Qed.

(** [abs(h % 360)], with the remainder of JavaScript, is [abs(h) mod 360]. *)
Lemma hue_abs_mod (compound : string) :
  hue compound = (Z.abs (hashCode compound) mod 360)%Z.
Proof.
  unfold hue.
  rewrite <- Z.rem_abs_l by lia.
  apply Z.rem_mod_nonneg; lia.
Qed.

Lemma hue_range (compound : string) : (0 <= hue compound < 360)%Z.
Proof.
  rewrite hue_abs_mod. apply Z.mod_pos_bound. lia.
Qed.

Lemma composition_entry_color (cs : list Component.t) (e : ElementComposition) :
  In e (generateCompositionData cs) -> color e = colorOf (element e).
Proof.
  unfold generateCompositionData. intros He.
  apply in_map_iff in He. destruct He as [entry [<- _]]. reflexivity.
Qed.

(** C8. The colour of an entry of the composition data is a function of its
    formula alone: entries with the same formula, taken from any two calls on
    any two lists of components, have the same colour, and that colour is
    [hsl(h, 70%, 60%)] with [h = abs(hashCode(formula)) mod 360]. *)
Theorem color_is_function_of_formula
    (cs1 cs2 : list Component.t) (e1 e2 : ElementComposition) :
  In e1 (generateCompositionData cs1) ->
  In e2 (generateCompositionData cs2) ->
  element e1 = element e2 ->
  color e1 = color e2
  /\ color e1
     = ("hsl(" ++ JS.show_int (Z.abs (hashCode (element e1)) mod 360)
        ++ ", 70%, 60%)")%string.
Proof.
  intros H1 H2 Heq.
  rewrite (composition_entry_color cs1 e1 H1), (composition_entry_color cs2 e2 H2).
  split.
  - now rewrite Heq.
  - unfold colorOf. now rewrite hue_abs_mod.
Qed.

(** The same compound in two different batches. *)
Lemma color_is_function_of_formula_witness :
  let e1 := {| element := "CaO"; percentage := 100; color := "hsl(153, 70%, 60%)" |} in
  let e2 := {| element := "CaO"; percentage := 25; color := "hsl(153, 70%, 60%)" |} in
  color e1 = color e2
  /\ color e1
     = ("hsl(" ++ JS.show_int (Z.abs (hashCode (element e1)) mod 360)
        ++ ", 70%, 60%)")%string.
Proof.
  intros e1 e2.
  apply (color_is_function_of_formula
           [Component.mk "CaO" 30 0]
           [Component.mk "La2O3" 60 0; Component.mk "CaO" 20 0] e1 e2).
  - vm_compute. left. reflexivity.
  - vm_compute. right. left. reflexivity.
  - reflexivity.
Defined.

(** ** Maps filled by a loop *)

Section Collect.

Context {A V : Type}.
Variable test : A -> bool.
Variable key : A -> string.
Variable val : A -> V.

Lemma get_set_same (k : string) (v : V) (m : JSMap.t V) :
  JSMap.get k (JSMap.set k v m) = Some v.
Proof.
  induction m as [ | [k' v'] m IH]; cbn.
  - now rewrite String.eqb_refl.
  - destruct (String.eqb k' k) eqn:E; cbn; rewrite E; [ reflexivity | exact IH ].
Qed.

Lemma get_set_other (k k' : string) (v : V) (m : JSMap.t V) :
  String.eqb k' k = false ->
  JSMap.get k (JSMap.set k' v m) = JSMap.get k m.
Proof.
  intros Hne. induction m as [ | [k0 v0] m IH]; cbn.
  - now rewrite Hne.
  - destruct (String.eqb k0 k') eqn:E; cbn.
    + apply String.eqb_eq in E. subst k0. now rewrite Hne.
    + now rewrite IH.
Qed.

Lemma set_fresh (k : string) (v : V) (m : JSMap.t V) :
  ~ In k (JSMap.keys m) -> JSMap.set k v m = (m ++ [(k, v)])%list.
Proof.
  induction m as [ | [k' v'] m IH]; cbn; intros Hn.
  - reflexivity.
  - destruct (String.eqb_spec k' k) as [-> | Hne].
    + exfalso. apply Hn. now left.
    + f_equal. apply IH. intros Hin. apply Hn. now right.
Qed.

Lemma keys_set_present (k : string) (v : V) (m : JSMap.t V) :
  In k (JSMap.keys m) -> JSMap.keys (JSMap.set k v m) = JSMap.keys m.
Proof.
  induction m as [ | [k' v'] m IH]; cbn; intros Hin.
  - contradiction.
  - destruct (String.eqb_spec k' k) as [-> | Hne]; cbn.
    + reflexivity.
    + f_equal. apply IH. destruct Hin as [Heq | Hin]; [ contradiction | exact Hin ].
Qed.

(** The value under a key after the loop is the value of the last element
    that set it. *)
Lemma get_collect (k : string) (l : list A) :
  forall m,
  JSMap.get k (collect test key val l m)
  = match lastWith (fun x => test x && String.eqb (key x) k) l with
    | Some x => Some (val x)
    | None => JSMap.get k m
    end.
Proof.
  induction l as [ | x l IH]; intros m; cbn.
  - reflexivity.
  - unfold collect in IH. rewrite IH.
    destruct (lastWith _ l) as [y | ]; [ reflexivity | ].
    destruct (test x) eqn:Et; cbn; [ | reflexivity ].
    destruct (String.eqb (key x) k) eqn:Ek.
    + apply String.eqb_eq in Ek. subst k. apply get_set_same.
    + apply get_set_other. exact Ek.
Qed.

(** When the keys of the elements that pass the test are pairwise distinct
    and new, the loop appends one entry per element, in order. *)
Lemma collect_distinct (l : list A) :
  forall m,
  NoDup (JSMap.keys m ++ map key (filter test l)) ->
  collect test key val l m
  = (m ++ map (fun x => (key x, val x)) (filter test l))%list.
Proof.
  induction l as [ | x l IH]; intros m Hnd; cbn.
  - now rewrite app_nil_r.
  - cbn in Hnd. destruct (test x) eqn:Et; cbn in *.
    + assert (Hfresh : ~ In (key x) (JSMap.keys m)).
      { intros Hin. apply NoDup_remove_2 in Hnd. apply Hnd.
        apply in_or_app. now left. }
      unfold collect in IH. rewrite IH.
      * rewrite (set_fresh _ _ _ Hfresh), <- app_assoc. reflexivity.
      * rewrite (set_fresh _ _ _ Hfresh). unfold JSMap.keys.
        rewrite map_app, <- app_assoc. exact Hnd.
    + apply IH. exact Hnd.
Qed.

End Collect.

(** ** First occurrences and last matches *)

Lemma mem_In (k : string) (ks : list string) : mem k ks = true <-> In k ks.
Proof.
  unfold mem. rewrite existsb_exists. split.
  - intros [x [Hin Heq]]. apply String.eqb_eq in Heq. now subst x.
  - intros Hin. exists k. split; [ exact Hin | apply String.eqb_refl ].
Qed.

Lemma mem_app (k : string) (ks ks' : list string) :
  mem k (ks ++ ks') = mem k ks || mem k ks'.
Proof. apply existsb_app. Qed.

Lemma filter_filter {A : Type} (p q : A -> bool) (l : list A) :
  filter p (filter q l) = filter (fun x => q x && p x) l.
Proof.
  induction l as [ | x l IH]; cbn; [ reflexivity | ].
  destruct (q x); cbn; [ destruct (p x) | ]; now rewrite IH.
Qed.

Lemma filter_true {A : Type} (l : list A) : filter (fun _ => true) l = l.
Proof.
  induction l as [ | x l IH]; cbn; [ reflexivity | now rewrite IH ].
Qed.

Lemma firstOccurrences_filter (p : string -> bool) (l : list string) :
  firstOccurrences (filter p l) = filter p (firstOccurrences l).
Proof.
  induction l as [ | x l IH]; cbn; [ reflexivity | ].
  destruct (p x) eqn:Ep; cbn; rewrite IH, !filter_filter.
  - f_equal. apply filter_ext. intros y. apply andb_comm.
  - apply filter_ext_in. intros y _.
    destruct (String.eqb_spec y x) as [-> | _]; cbn.
    + now rewrite Ep.
    + reflexivity.
Qed.

Lemma firstOccurrences_In (k : string) (l : list string) :
  In k (firstOccurrences l) <-> In k l.
Proof.
  induction l as [ | x l IH]; cbn; [ tauto | ].
  rewrite filter_In, IH.
  destruct (String.eqb_spec k x) as [-> | Hne]; cbn.
  - split; [ now left | now left ].
  - split.
    + intros [Heq | [Hin _]]; [ now left | now right ].
    + intros [Heq | Hin]; [ now left | right; now split ].
Qed.

Lemma firstOccurrences_NoDup (l : list string) : NoDup (firstOccurrences l).
Proof.
  induction l as [ | x l IH]; cbn; constructor.
  - rewrite filter_In. intros [_ Hne]. now rewrite String.eqb_refl in Hne.
  - apply NoDup_filter. exact IH.
Qed.

(** On a list without repetition nothing is dropped. *)
Lemma firstOccurrences_distinct (l : list string) :
  NoDup l -> firstOccurrences l = l.
Proof.
  induction l as [ | x l IH]; cbn; intros Hnd; [ reflexivity | ].
  inversion Hnd as [ | ? ? Hx Hl]; subst.
  rewrite (IH Hl). f_equal.
  rewrite <- (filter_ext_in (fun _ => true)).
  - apply filter_true.
  - intros y Hy. destruct (String.eqb_spec y x) as [-> | _]; [ contradiction | reflexivity ].
Qed.

Lemma lastWith_filter {A : Type} (test p : A -> bool) (l : list A) :
  lastWith (fun x => test x && p x) l = lastWith p (filter test l).
Proof.
  induction l as [ | x l IH]; cbn; [ reflexivity | ].
  destruct (test x) eqn:Et; cbn; rewrite IH; [ reflexivity | ].
  now destruct (lastWith p (filter test l)).
Qed.

Lemma lastWith_Some {A : Type} (test : A -> bool) (l : list A) (x : A) :
  lastWith test l = Some x -> In x l /\ test x = true.
Proof.
  induction l as [ | y l IH]; cbn; [ discriminate | ].
  destruct (lastWith test l) as [z | ].
  - intros [= ->]. destruct (IH eq_refl) as [Hin Ht]. split; [ now right | exact Ht ].
  - destruct (test y) eqn:Et; [ | discriminate ].
    intros [= ->]. split; [ now left | exact Et ].
Qed.

Lemma lastWith_None {A : Type} (test : A -> bool) (l : list A) :
  lastWith test l = None <-> (forall x, In x l -> test x = false).
Proof.
  induction l as [ | y l IH]; cbn.
  - split; [ intros _ x [] | reflexivity ].
  - destruct (lastWith test l) as [z | ].
    + split; [ discriminate | ].
      intros H. destruct IH as [_ IH]. discriminate IH. intros x Hx. apply H. now right.
    + destruct IH as [IH _]. specialize (IH eq_refl).
      destruct (test y) eqn:Et.
      * split; [ discriminate | ]. intros H. rewrite (H y) in Et by now left. discriminate.
      * split; [ | reflexivity ]. intros _ x [<- | Hx]; [ exact Et | now apply IH ].
Qed.

Section CollectKeys.

Context {A V : Type}.
Variable test : A -> bool.
Variable key : A -> string.
Variable val : A -> V.

(** The keys after the loop: the keys before it, then the new keys in order
    of first occurrence. *)
Lemma keys_collect (l : list A) :
  forall m,
  JSMap.keys (collect test key val l m)
  = (JSMap.keys m
     ++ filter (fun k => negb (mem k (JSMap.keys m)))
          (firstOccurrences (map key (filter test l))))%list.
Proof.
  induction l as [ | x l IH]; intros m.
  - cbn. now rewrite app_nil_r.
  - change (collect test key val (x :: l) m)
      with (collect test key val l
              (if test x then JSMap.set (key x) (val x) m else m)).
    rewrite IH. cbn [filter].
    destruct (test x) eqn:Et; [ | reflexivity ].
    cbn [map firstOccurrences filter].
    destruct (mem (key x) (JSMap.keys m)) eqn:Em; cbn [negb].
    + rewrite keys_set_present by now apply mem_In.
      f_equal. rewrite filter_filter. apply filter_ext_in. intros k _.
      destruct (String.eqb_spec k (key x)) as [-> | _]; cbn; [ now rewrite Em | reflexivity ].
    + assert (Hfresh : ~ In (key x) (JSMap.keys m)).
      { intros Hin. apply mem_In in Hin. congruence. }
      rewrite (set_fresh _ _ _ Hfresh). unfold JSMap.keys at 1 2.
      rewrite map_app, <- app_assoc. cbn [map fst app]. do 2 f_equal.
      rewrite filter_filter. apply filter_ext. intros k.
      fold (JSMap.keys m). rewrite mem_app. cbn.
      rewrite orb_false_r, negb_orb. apply andb_comm.
Qed.

(** A map without repeated keys is determined by its keys and [get]. *)
Lemma entries_by_get (d : V) (m : JSMap.t V) :
  NoDup (JSMap.keys m) ->
  m = map (fun k => (k, match JSMap.get k m with Some v => v | None => d end))
        (JSMap.keys m).
Proof.
  induction m as [ | [k v] m IH]; cbn; intros Hnd; [ reflexivity | ].
  inversion Hnd as [ | ? ? Hk Hm]; subst.
  rewrite String.eqb_refl. f_equal.
  rewrite (IH Hm) at 1. apply map_ext_in. intros k' Hk'.
  destruct (String.eqb_spec k k') as [-> | _]; [ contradiction | reflexivity ].
Qed.

End CollectKeys.

(** ** Composition data *)

Lemma compoundMap_collect (cs : list Component.t) :
  compoundMap cs = collect retained Component.formula Component.matrix cs [].
Proof. reflexivity. Qed.

Lemma compoundMap_keys (cs : list Component.t) :
  JSMap.keys (compoundMap cs) = keptFormulas cs.
Proof.
  rewrite compoundMap_collect, keys_collect.
  unfold keptFormulas, keptComponents. cbn [JSMap.keys map app].
  apply filter_true.
Qed.

Lemma compoundMap_get (cs : list Component.t) (f : string) :
  match JSMap.get f (compoundMap cs) with Some v => v | None => 0%float end
  = lastMatrix cs f.
Proof.
  rewrite compoundMap_collect, get_collect, lastWith_filter.
  unfold lastMatrix, keptComponents.
  now destruct (lastWith _ (filter retained cs)).
Qed.

(** The map of compounds, entry by entry. *)
Lemma compoundMap_entries (cs : list Component.t) :
  compoundMap cs = map (fun f => (f, lastMatrix cs f)) (keptFormulas cs).
Proof.
  rewrite (entries_by_get 0%float (compoundMap cs)) at 1.
  - rewrite compoundMap_keys. apply map_ext. intros f.
    now rewrite compoundMap_get.
  - rewrite compoundMap_keys. apply firstOccurrences_NoDup.
Qed.

Lemma compoundMap_distinct (cs : list Component.t) :
  NoDup (map Component.formula (keptComponents cs)) ->
  compoundMap cs
  = map (fun c => (Component.formula c, Component.matrix c)) (keptComponents cs).
Proof.
  intros Hnd. rewrite compoundMap_collect.
  now rewrite collect_distinct by exact Hnd.
Qed.

(** C7, as the code has it.  The composition data holds one entry per
    distinct formula of the kept components (those with a non-empty formula
    and a matrix value that is neither zero nor NaN), in order of first
    occurrence; the entry of a formula carries the matrix value [v] of the
    last kept component with that formula, and its percentage is
    [v / total * 100], [total] being the sum of these values over the entries.
    When the kept components have pairwise distinct formulas, this is one
    entry per kept component with percentage
    [matrix_i / sum(matrix) * 100]. *)
Theorem composition_one_entry_per_formula (cs : list Component.t) :
  let total := BatchContext.sum (map (lastMatrix cs) (keptFormulas cs)) in
  generateCompositionData cs
  = map (fun f => {| element := f;
                     percentage := (lastMatrix cs f / total) * 100;
                     color := colorOf f |})
      (keptFormulas cs)
  /\ NoDup (keptFormulas cs)
  /\ (forall f, In f (keptFormulas cs) <->
        exists c, In c cs /\ retained c = true /\ Component.formula c = f)
  /\ (NoDup (map Component.formula (keptComponents cs)) ->
      map (fun e => (element e, percentage e)) (generateCompositionData cs)
      = map (fun c =>
               (Component.formula c,
                (Component.matrix c
                 / BatchContext.sum (map Component.matrix (keptComponents cs)))
                * 100)%float)
          (keptComponents cs)).
Proof.
  intros total. repeat split.
  - unfold generateCompositionData, JSMap.entries, JSMap.values.
    rewrite compoundMap_entries, !map_map. cbn [fst snd]. reflexivity.
  - apply firstOccurrences_NoDup.
  - unfold keptFormulas, keptComponents. rewrite firstOccurrences_In, in_map_iff.
    intros [c [Hf Hc]]. apply filter_In in Hc. exists c. tauto.
  - intros [c [Hin [Hr Hf]]]. unfold keptFormulas, keptComponents.
    rewrite firstOccurrences_In, in_map_iff. exists c. rewrite filter_In. tauto.
  - intros Hnd. unfold generateCompositionData, JSMap.entries, JSMap.values.
    rewrite (compoundMap_distinct cs Hnd), !map_map. cbn [fst snd]. reflexivity.
Qed.

(** Three distinct compounds: one entry each. *)
Lemma composition_one_entry_per_formula_witness :
  map (fun e => (element e, percentage e))
    (generateCompositionData (components initial))
  = [("CaO", 30%float); ("La2O3", 10%float); ("H3BO3", 60%float)].
Proof.
  destruct (composition_one_entry_per_formula (components initial))
    as [_ [_ [_ Hdistinct]]].
  rewrite Hdistinct.
  - vm_compute. reflexivity.
  - vm_compute. repeat constructor; cbn; intuition discriminate.
Defined.

(** C7 as stated fails when two kept components share a formula: the map of
    compounds keeps one entry for both. *)
Lemma composition_duplicate_formula_counterexample :
  ~ (forall cs : list Component.t,
       map (fun e => (element e, percentage e)) (generateCompositionData cs)
       = map (fun c =>
                (Component.formula c,
                 (Component.matrix c
                  / BatchContext.sum (map Component.matrix (keptComponents cs)))
                 * 100)%float)
           (keptComponents cs)).
Proof.
  intros H.
  specialize (H [Component.mk "CaO" 30 0; Component.mk "CaO" 20 0]).
  vm_compute in H. discriminate H.
Qed.

(** ** Raw quantities of the components *)

Lemma precursorMolesMap_collect (products : list Product.t) :
  precursorMolesMap products
  = collect (fun p => JS.nonempty (Product.precursorFormula p))
      Product.precursorFormula Product.precursorMoles products [].
Proof. reflexivity. Qed.

Lemma precursorMolesMap_get (formula : string) (products : list Product.t) :
  JSMap.get formula (precursorMolesMap products)
  = option_map Product.precursorMoles (matchedProduct formula products).
Proof.
  rewrite precursorMolesMap_collect, get_collect. unfold matchedProduct.
  now destruct (lastWith _ products).
Qed.

Lemma molesOf_moleRatio (formula : string) (products : list Product.t) :
  molesOf (precursorMolesMap products) formula = moleRatio formula products.
Proof.
  unfold molesOf, moleRatio. rewrite precursorMolesMap_get.
  now destruct (matchedProduct formula products).
Qed.

(** C2. Each component of the list yields, at the same position, the raw
    quantity [matrix * mw * moleRatio / 1000]; the mole ratio is the
    precursor-mole value of the product matched to the component's formula,
    and it is 1 when no product names that formula as its precursor. *)
Theorem compResults_raw_quantity
    (components : list Component.t) (products : list Product.t) :
  compResults components products
  = map (fun c =>
           ComponentResult.mk (Component.formula c) (Component.matrix c)
             (Component.mw c)
             ((Component.matrix c * Component.mw c
               * moleRatio (Component.formula c) products) / 1000)%float
             None None)
      components
  /\ (forall formula p,
        matchedProduct formula products = Some p ->
        JS.truthy (Product.precursorMoles p) = true ->
        moleRatio formula products = Product.precursorMoles p
        /\ In p products /\ Product.precursorFormula p = formula)
  /\ (forall formula,
        (forall p, In p products -> Product.precursorFormula p <> formula) ->
        moleRatio formula products = 1%float).
Proof.
  split; [ | split ].
  - unfold compResults. apply map_ext. intros c.
    now rewrite molesOf_moleRatio.
  - intros formula p Hm Ht. split.
    + unfold moleRatio. now rewrite Hm, Ht.
    + apply lastWith_Some in Hm. destruct Hm as [Hin Htest].
      apply andb_prop in Htest. destruct Htest as [_ Heq].
      split; [ exact Hin | now apply String.eqb_eq ].
  - intros formula Hnone. unfold moleRatio, matchedProduct.
    replace (lastWith _ products) with (@None Product.t); [ reflexivity | ].
    symmetry. apply lastWith_None. intros p Hp.
    destruct (String.eqb_spec (Product.precursorFormula p) formula) as [Heq | _].
    + now apply Hnone in Heq.
    + apply andb_false_r.
Qed.

(** Boric acid is matched to a product with two precursor moles, calcium
    oxide to none. *)
Lemma compResults_raw_quantity_witness :
  map ComponentResult.molQty
    (compResults [ Component.mk "CaO" 30 56; Component.mk "H3BO3" 60 62 ]
       (products initial))
  = [ (30 * 56 * 1 / 1000)%float; (60 * 62 * 2 / 1000)%float ]
  /\ moleRatio "H3BO3" (products initial) = 2%float
  /\ moleRatio "CaO" (products initial) = 1%float.
Proof.
  destruct (compResults_raw_quantity
              [ Component.mk "CaO" 30 56; Component.mk "H3BO3" 60 62 ]
              (products initial))
    as [Hraw [Hmatched Hdefault]].
  split; [ | split ].
  - rewrite Hraw. reflexivity.
  - apply (Hmatched "H3BO3" (Product.mk "B2O3" 0 None "H3BO3" 2 1)); reflexivity.
  - apply Hdefault. intros p Hp. cbn in Hp.
    destruct Hp as [<- | [<- | []]]; discriminate.
Defined.

(** ** Loading the table *)

Lemma split_piece (sep : ascii) (a b : string) :
  lacks sep a = true ->
  JS.split sep (a ++ String sep b) = a :: JS.split sep b.
Proof.
  induction a as [ | c a IH]; cbn; intros Ha.
  - now rewrite Ascii.eqb_refl.
  - apply andb_prop in Ha. destruct Ha as [Hc Ha].
    apply negb_true_iff in Hc. rewrite Hc, (IH Ha). reflexivity.
Qed.

Lemma split_whole (sep : ascii) (a : string) :
  lacks sep a = true -> JS.split sep a = [a].
Proof.
  induction a as [ | c a IH]; cbn; intros Ha; [ reflexivity | ].
  apply andb_prop in Ha. destruct Ha as [Hc Ha].
  apply negb_true_iff in Hc. rewrite Hc, (IH Ha). reflexivity.
Qed.

(** Splitting a joined text gives the pieces back. *)
Lemma split_join (sep : ascii) (p : string) (rest : list string) :
  Forall (fun s => lacks sep s = true) (p :: rest) ->
  JS.split sep (join sep (p :: rest)) = p :: rest.
Proof.
  revert p. induction rest as [ | q rest IH]; intros p Hall.
  - apply split_whole. now inversion Hall.
  - inversion Hall as [ | ? ? Hp Hrest]; subst.
    change (join sep (p :: q :: rest))
      with (p ++ String sep (join sep (q :: rest)))%string.
    rewrite (split_piece _ _ _ Hp), (IH q Hrest). reflexivity.
Qed.

(** C9, as the code has it.  The loader drops the header line and turns
    every line after it into an entry, in order, reading the columns by
    position: atomic number, element name, symbol, atomic mass.  No line is
    rejected and none stops the load: a line without commas gives an entry
    with no symbol and [NaN] as its mass. *)
Theorem loadAtomics_every_row (txt header : string) (rows : list string) :
  JS.trim txt = join newline (header :: rows) ->
  Forall (fun l => lacks newline l = true) (header :: rows) ->
  loadAtomics txt = map parseRow rows
  /\ (forall n name sym mass extra,
        Forall (fun s => lacks "," s = true) (n :: name :: sym :: mass :: extra) ->
        parseRow (join "," (n :: name :: sym :: mass :: extra))
        = {| Symbol := Some sym; Atomic_Mass := JS.toNumber mass;
             Element := Some name; Atomic_Number := JS.toNumber n |})
  /\ (forall l,
        lacks "," l = true ->
        parseRow l
        = {| Symbol := None; Atomic_Mass := JS.NaN;
             Element := None; Atomic_Number := JS.toNumber l |}).
Proof.
  intros Htxt Hlines. split; [ | split ].
  - unfold loadAtomics, dataLines. rewrite Htxt.
    fold newline. rewrite (split_join _ _ _ Hlines). reflexivity.
  - intros n name sym mass extra Hcols. unfold parseRow.
    rewrite (split_join _ _ _ Hcols). reflexivity.
  - intros l Hl. unfold parseRow. rewrite (split_whole _ _ Hl). reflexivity.
Qed.

(** The table with a broken line: three entries, the second without a
    symbol, the others as written. *)
Lemma loadAtomics_every_row_witness :
  loadAtomics brokenTable
  = [ {| Symbol := Some "H"; Atomic_Mass := JS.toNumber "1.008";
         Element := Some "Hydrogen"; Atomic_Number := 1%float |};
      {| Symbol := None; Atomic_Mass := JS.NaN;
         Element := None; Atomic_Number := JS.NaN |};
      {| Symbol := Some "O"; Atomic_Mass := JS.toNumber "15.999";
         Element := Some "Oxygen"; Atomic_Number := 8%float |} ].
Proof.
  destruct (loadAtomics_every_row brokenTable
              "AtomicNumber,Element,Symbol,AtomicMass"
              [ "1,Hydrogen,H,1.008"; "oops"; "8,Oxygen,O,15.999" ])
    as [Hrows _].
  - vm_compute. reflexivity.
  - repeat constructor.
  - rewrite Hrows. vm_compute. reflexivity.
Defined.

(** C9 as stated fails: the broken line is not rejected, it is loaded as an
    entry of the table. *)
Lemma loadAtomics_keeps_malformed_row_counterexample :
  wellFormedRow "oops" = false
  /\ In "oops" (dataLines brokenTable)
  /\ loadAtomics brokenTable
     <> map parseRow (filter wellFormedRow (dataLines brokenTable))
  /\ In (parseRow "oops") (loadAtomics brokenTable).
Proof.
  split; [ reflexivity | ].
  split; [ vm_compute; tauto | ].
  split.
  - intros H. apply (f_equal (@List.length AtomicMass)) in H.
    vm_compute in H. discriminate H.
  - vm_compute. right. left. reflexivity.
Qed.

(** ** The views with gravimetric factors *)

Lemma hasGF_factor (cs : list Component.t) (p : Product.t) :
  hasGF cs p = true -> exists g, Product.gf p = Some g.
Proof.
  unfold hasGF. destruct (Product.gf p) as [g | ].
  - intros _. now exists g.
  - rewrite andb_false_r. discriminate.
Qed.

Lemma precursorGfMap_collect (cs : list Component.t) (ps : list Product.t) :
  precursorGfMap cs ps
  = collect (hasGF cs) Product.precursorFormula infoOf ps [].
Proof.
  unfold precursorGfMap, collect, JSMap.empty.
  generalize (@nil (string * ProductInfo)).
  induction ps as [ | p ps IH]; intros m; cbn [fold_left]; [ reflexivity | ].
  rewrite <- IH. f_equal.
  destruct (hasGF cs p) eqn:Eh.
  - destruct (hasGF_factor cs p Eh) as [g Eg]. unfold infoOf. now rewrite Eg.
  - now destruct (Product.gf p).
Qed.

Lemma precursorGfMap_get (cs : list Component.t) (ps : list Product.t)
    (formula : string) :
  JSMap.get formula (precursorGfMap cs ps)
  = option_map infoOf (gfProduct cs formula ps).
Proof.
  rewrite precursorGfMap_collect, get_collect. unfold gfProduct.
  now destruct (lastWith _ ps).
Qed.

Lemma gfProduct_Some (cs : list Component.t) (ps : list Product.t)
    (formula : string) (p : Product.t) :
  gfProduct cs formula ps = Some p ->
  In p ps /\ Product.precursorFormula p = formula
  /\ exists g, Product.gf p = Some g.
Proof.
  intros H. apply lastWith_Some in H. destruct H as [Hin Ht].
  apply andb_prop in Ht. destruct Ht as [Hg Hf].
  split; [ exact Hin | split ].
  - now apply String.eqb_eq.
  - exact (hasGF_factor cs p Hg).
Qed.

(** Without any usable factor no component has an entry, so the view is
    computed by the same function in both branches. *)
Lemma gfResults_map (st : State) :
  gfResults st
  = map (gfResult st) (compResults (components st) (products st)).
Proof.
  unfold gfResults. destruct (hasValidProductsWithGF _ _) eqn:Ev; [ reflexivity | ].
  rewrite <- (map_id (compResults _ _)) at 1. apply map_ext. intros c.
  unfold gfResult. rewrite precursorGfMap_get.
  replace (gfProduct (components st) (ComponentResult.formula c) (products st))
    with (@None Product.t); [ reflexivity | ].
  symmetry. apply lastWith_None. intros p Hp.
  unfold hasValidProductsWithGF in Ev.
  assert (Hg : hasGF (components st) p = false).
  { destruct (hasGF (components st) p) eqn:Eg; [ | reflexivity ].
    rewrite <- Ev. symmetry. apply existsb_exists. now exists p. }
  now rewrite Hg.
Qed.

(** C3, as the code has it.  In the view with gravimetric factors a component
    keeps its place, its formula and its matrix value.  When a product
    supplies a factor [g] for its formula, the weight of the component
    becomes the molecular weight of that product and its raw quantity is
    [matrix * productMW / 1000], without the factor and without any mole
    ratio; the normalizer receives that weight (the component's own when the
    product's is 0 or NaN) with the factor [g] (1 when [g] is 0 or NaN)
    beside it.  Without such a product the component keeps its weight and its
    raw quantity [matrix * mw * moleRatio / 1000], and the factor handed to
    the normalizer is 1.  In the product view the weight of a product is
    [mw * gf] when its factor is set and both of its mole values are
    positive, and [mw] otherwise. *)
Theorem gf_view_weights (st : State) (i : nat) (c : Component.t) :
  nth_error (components st) i = Some c ->
  exists r w,
    nth_error (gfResults st) i = Some r
    /\ nth_error (componentsWithGF (components st) (products st)) i = Some w
    /\ ComponentResult.formula r = Component.formula c
    /\ ComponentResult.matrix r = Component.matrix c
    /\ precursor w = Component.formula c
    /\ cgf_matrix w = Component.matrix c
    /\ match gfProduct (components st) (Component.formula c) (products st) with
       | Some p =>
           exists g,
             Product.gf p = Some g
             /\ ComponentResult.mw r = Product.mw p
             /\ ComponentResult.molQty r
                = ((Component.matrix c * Product.mw p) / 1000)%float
             /\ ComponentResult.productFormula r = Some (Product.formula p)
             /\ molecularWeight w = JS.or_else (Product.mw p) (Component.mw c)
             /\ cgf_gf w = JS.or_else g 1%float
       | None =>
           ComponentResult.mw r = Component.mw c
           /\ ComponentResult.molQty r
              = ((Component.matrix c * Component.mw c
                  * moleRatio (Component.formula c) (products st)) / 1000)%float
           /\ ComponentResult.productFormula r = None
           /\ molecularWeight w = Component.mw c
           /\ cgf_gf w = 1%float
       end
    /\ (forall p, In p (products st) ->
          effectiveMW p
          = match Product.gf p with
            | Some g =>
                if ((0 <? Product.productMoles p)
                    && (0 <? Product.precursorMoles p))%float
                then (Product.mw p * g)%float
                else Product.mw p
            | None => Product.mw p
            end
          /\ In (ProductResult.mk p
                   ((precursorMatrix (components st) p * effectiveMW p
                     * Product.productMoles p) / 1000)%float)
               (productResults (components st) (products st))).
Proof.
  intros Hc.
  eexists. eexists.
  split.
  { rewrite gfResults_map. unfold compResults.
    rewrite map_map, nth_error_map, Hc. reflexivity. }
  split.
  { unfold componentsWithGF. rewrite nth_error_map, Hc. reflexivity. }
  cbn [precursor cgf_matrix molecularWeight cgf_gf].
  unfold gfResult. cbn [ComponentResult.formula ComponentResult.matrix].
  rewrite precursorGfMap_get, molesOf_moleRatio.
  destruct (gfProduct (components st) (Component.formula c) (products st))
    as [p | ] eqn:Ep; cbn.
  - destruct (gfProduct_Some _ _ _ _ Ep) as [_ [_ [g Eg]]].
    repeat (split; [ reflexivity | ]).
    split.
    + exists g. rewrite Eg. repeat split; reflexivity.
    + intros q Hq. split; [ reflexivity | ].
      unfold productResults. apply in_map_iff. now exists q.
  - repeat (split; [ reflexivity | ]).
    split; [ repeat split; reflexivity | ].
    intros q Hq. split; [ reflexivity | ].
    unfold productResults. apply in_map_iff. now exists q.
Qed.

(** The precursor A with its product B. *)
Lemma gf_view_weights_witness :
  exists r w,
    nth_error (gfResults withFactor) 0 = Some r
    /\ nth_error
         (componentsWithGF (components withFactor) (products withFactor)) 0
       = Some w
    /\ ComponentResult.mw r = 30%float
    /\ ComponentResult.molQty r = (50 * 30 / 1000)%float
    /\ molecularWeight w = 30%float
    /\ cgf_gf w = 6%float.
Proof.
  destruct (gf_view_weights withFactor 0 (Component.mk "A" 50 10))
    as [r [w [Hr [Hw [_ [_ [_ [_ [Hview _]]]]]]]]].
  - reflexivity.
  - exists r, w. split; [ exact Hr | split; [ exact Hw | ] ].
    assert (Hp : gfProduct (components withFactor) "A" (products withFactor)
                 = Some (Product.mk "B" 30 (Some 6%float) "A" 1 2)).
    { reflexivity. }
    cbn [Component.formula] in Hview. rewrite Hp in Hview.
    destruct Hview as [g [Hg [Hmw [Hqty [_ [Hw' Hgf]]]]]].
    injection Hg as <-.
    split; [ exact Hmw | split; [ exact Hqty | split ] ].
    + rewrite Hw'. reflexivity.
    + rewrite Hgf. reflexivity.
Defined.

(** C3 as stated fails in the view of the precursors: the component A has
    the gravimetric factor 6 available, yet its raw quantity is
    [matrix * productMW / 1000 = 1.5] and not
    [matrix * (weight * GF) * moleRatio / 1000 = 3]; and the weight handed to
    the normalizer with the factor is that of the product, 30, not that of
    the component, 10. *)
Lemma gf_view_raw_quantity_counterexample :
  exists c r w info,
    nth_error (components withFactor) 0 = Some c
    /\ nth_error (gfResults withFactor) 0 = Some r
    /\ nth_error
         (componentsWithGF (components withFactor) (products withFactor)) 0
       = Some w
    /\ JSMap.get (Component.formula c)
         (precursorGfMap (components withFactor) (products withFactor))
       = Some info
    /\ info_gf info = 6%float
    /\ Component.mw c = 10%float
    /\ moleRatio (Component.formula c) (products withFactor) = 1%float
    /\ ComponentResult.molQty r = 1.5%float
    /\ ((Component.matrix c * (Component.mw c * info_gf info)
         * moleRatio (Component.formula c) (products withFactor)) / 1000)%float
       = 3%float
    /\ (ComponentResult.molQty r =? 3)%float = false
    /\ molecularWeight w = 30%float
    /\ (molecularWeight w =? Component.mw c)%float = false.
Proof.
  eexists. eexists. eexists. eexists.
  split; [ reflexivity | ].
  split; [ vm_compute; reflexivity | ].
  split; [ vm_compute; reflexivity | ].
  split; [ vm_compute; reflexivity | ].
  repeat split; vm_compute; reflexivity.
Qed.

(** ** The formula parser *)

Lemma append_empty_r (s : string) : (s ++ EmptyString)%string = s.
Proof.
  induction s as [ | c s IH]; cbn; [ reflexivity | now rewrite IH ].
Qed.

Lemma append_assoc (a b c : string) :
  ((a ++ b) ++ c)%string = (a ++ (b ++ c))%string.
Proof.
  induction a as [ | x a IH]; cbn; [ reflexivity | now rewrite IH ].
Qed.

Section Parser.

Import Chemistry.
Open Scope float_scope.

Lemma literal_char_class (c : ascii) :
  JS.is_digit c || Ascii.eqb c "." = true ->
  JS.is_upper c = false /\ JS.is_lower c = false.
Proof.
  intros H. apply orb_prop in H. destruct H as [Hd | Hdot].
  - unfold JS.is_digit in Hd. unfold JS.is_upper, JS.is_lower.
    apply andb_prop in Hd. destruct Hd as [_ Hhi]. apply Z.leb_le in Hhi.
    split; apply andb_false_iff; left; apply Z.leb_gt; lia.
  - apply Ascii.eqb_eq in Hdot. subst c. split; reflexivity.
Qed.

(** Reading the literal of a group up to the end of the text. *)
Lemma parse_from_literal (lit : string) :
  literalChars lit = true ->
  forall scope parents group lit0,
  parse_from lit scope parents (GroupToken group lit0)
  = match flush scope (GroupToken group (lit0 ++ lit)) with
    | inl e => inl e
    | inr scope' =>
        match parents with
        | [] => inr scope'
        | _ :: _ => inl UnclosedGroup
        end
    end.
Proof.
  induction lit as [ | c lit IH]; intros Hlit scope parents group lit0.
  - cbn [parse_from]. now rewrite append_empty_r.
  - cbn [literalChars] in Hlit. apply andb_prop in Hlit.
    destruct Hlit as [Hc Hlit].
    destruct (literal_char_class c Hc) as [Hup Hlow].
    cbn [parse_from]. rewrite Hup, Hlow, Hc.
    rewrite (IH Hlit). unfold append_char.
    now rewrite append_assoc.
Qed.

(** A formula that parses on its own, met inside a group: once its closing
    parenthesis is read, its counts are the pending group. *)
Lemma parse_from_inner (f : string) :
  forall scope parents p g,
  parse_from f scope parents p = inr g ->
  forall s parent outer,
  parse_from (f ++ String ")" s) scope (parents ++ parent :: outer) p
  = parse_from s parent outer (GroupToken g EmptyString).
Proof.
  induction f as [ | c f IH]; intros scope parents p g H s parent outer.
  - cbn [parse_from] in H.
    destruct (flush scope p) as [e | scope'] eqn:Ef; [ discriminate | ].
    destruct parents; [ | discriminate ]. injection H as ->.
    cbn. now rewrite Ef.
  - cbn [String.append parse_from] in *.
    destruct (JS.is_upper c).
    { destruct (flush scope p); [ discriminate | ]. now apply IH. }
    destruct (JS.is_lower c).
    { destruct p as [ | sym lit | ]; try discriminate.
      destruct lit; try discriminate. now apply IH. }
    destruct (JS.is_digit c || Ascii.eqb c ".").
    { destruct p; try discriminate; now apply IH. }
    destruct (Ascii.eqb c "(").
    { destruct (flush scope p); [ discriminate | ].
      rewrite app_comm_cons. now apply IH. }
    destruct (Ascii.eqb c ")"); [ | discriminate ].
    destruct (flush scope p); [ discriminate | ].
    destruct parents as [ | par rest ]; [ discriminate | ].
    cbn [app]. now apply IH.
Qed.

(** *** Counts under a symbol *)

Lemma get_add_count_same (k : string) (v : JS.number) (m : ElementCounts) :
  JSMap.get k (add_count k v m)
  = Some (match JSMap.get k m with Some w => w + v | None => v end).
Proof.
  induction m as [ | [k' v'] m IH]; cbn.
  - now rewrite String.eqb_refl.
  - destruct (String.eqb k' k) eqn:E; cbn; rewrite E; [ reflexivity | exact IH ].
Qed.

Lemma get_add_count_other (k k' : string) (v : JS.number) (m : ElementCounts) :
  String.eqb k' k = false ->
  JSMap.get k (add_count k' v m) = JSMap.get k m.
Proof.
  intros Hne. induction m as [ | [k0 v0] m IH]; cbn.
  - now rewrite Hne.
  - destruct (String.eqb k0 k') eqn:E; cbn.
    + apply String.eqb_eq in E. subst k0. now rewrite Hne.
    + now rewrite IH.
Qed.

Lemma keys_add_count (k : string) (v : JS.number) (m : ElementCounts) :
  JSMap.keys (add_count k v m) = JSMap.keys (JSMap.set k v m).
Proof.
  induction m as [ | [k' v'] m IH]; cbn; [ reflexivity | ].
  destruct (String.eqb k' k); cbn; [ reflexivity | f_equal; exact IH ].
Qed.

Lemma add_count_NoDup (k : string) (v : JS.number) (m : ElementCounts) :
  NoDup (JSMap.keys m) -> NoDup (JSMap.keys (add_count k v m)).
Proof.
  intros Hnd. rewrite keys_add_count.
  destruct (mem k (JSMap.keys m)) eqn:Em.
  - rewrite keys_set_present; [ exact Hnd | now apply mem_In ].
  - assert (Hfresh : ~ In k (JSMap.keys m)).
    { intros Hin. apply mem_In in Hin. congruence. }
    rewrite (set_fresh _ _ _ Hfresh). unfold JSMap.keys. rewrite map_app.
    cbn. apply NoDup_app_remove_l with (l := []). cbn.
    apply NoDup_rev in Hnd. rewrite <- (rev_involutive (map fst m ++ [k])).
    apply NoDup_rev. rewrite rev_app_distr. cbn. constructor.
    + rewrite <- in_rev. exact Hfresh.
    + exact Hnd.
Qed.

Lemma merge_into_NoDup (group scope : ElementCounts) :
  NoDup (JSMap.keys scope) -> NoDup (JSMap.keys (merge_into scope group)).
Proof.
  unfold merge_into. revert scope.
  induction group as [ | [k v] group IH]; intros scope Hnd; cbn.
  - exact Hnd.
  - apply IH. now apply add_count_NoDup.
Qed.

Lemma get_absent (k : string) (m : ElementCounts) :
  ~ In k (JSMap.keys m) -> JSMap.get k m = None.
Proof.
  induction m as [ | [k' v'] m IH]; cbn; intros Hn; [ reflexivity | ].
  destruct (String.eqb_spec k' k) as [-> | _].
  - exfalso. apply Hn. now left.
  - apply IH. intros Hin. apply Hn. now right.
Qed.

(** Merging sums the counts of a symbol present on both sides and keeps a
    count present on one side only. *)
Lemma get_merge_into (group : ElementCounts) :
  NoDup (JSMap.keys group) ->
  forall scope k,
  JSMap.get k (merge_into scope group)
  = match JSMap.get k scope, JSMap.get k group with
    | Some a, Some b => Some (a + b)
    | Some a, None => Some a
    | None, Some b => Some b
    | None, None => None
    end.
Proof.
  unfold merge_into.
  induction group as [ | [k0 v0] group IH]; intros Hnd scope k; cbn.
  - now destruct (JSMap.get k scope).
  - inversion Hnd as [ | ? ? Hk0 Hgroup]; subst.
    rewrite (IH Hgroup).
    destruct (String.eqb_spec k0 k) as [-> | Hne].
    + rewrite get_add_count_same, (get_absent k group Hk0).
      now destruct (JSMap.get k scope).
    + rewrite get_add_count_other by now apply String.eqb_neq.
      reflexivity.
Qed.

Lemma keys_scale (n : JS.number) (group : ElementCounts) :
  JSMap.keys (scale n group) = JSMap.keys group.
Proof.
  unfold scale, JSMap.keys. rewrite map_map. reflexivity.
Qed.

Lemma get_scale (n : JS.number) (group : ElementCounts) (k : string) :
  JSMap.get k (scale n group)
  = option_map (fun v => v * n) (JSMap.get k group).
Proof.
  induction group as [ | [k' v'] group IH]; cbn; [ reflexivity | ].
  destruct (String.eqb k' k); [ reflexivity | exact IH ].
Qed.

(** *** No symbol twice in a result *)

Lemma flush_NoDup (scope : ElementCounts) (p : Pending) (scope' : ElementCounts) :
  NoDup (JSMap.keys scope) -> pendingNoDup p ->
  flush scope p = inr scope' -> NoDup (JSMap.keys scope').
Proof.
  intros Hs Hp. destruct p as [ | sym lit | group lit]; cbn.
  - now intros [= <-].
  - destruct (numeric_literal lit); [ | discriminate ].
    intros [= <-]. now apply add_count_NoDup.
  - destruct (numeric_literal lit); [ | discriminate ].
    intros [= <-]. now apply merge_into_NoDup.
Qed.

Lemma parse_from_NoDup (s : string) :
  forall scope parents p g,
  NoDup (JSMap.keys scope) ->
  Forall (fun m => NoDup (JSMap.keys m)) parents ->
  pendingNoDup p ->
  parse_from s scope parents p = inr g -> NoDup (JSMap.keys g).
Proof.
  induction s as [ | c s IH]; intros scope parents p g Hs Hps Hp; cbn [parse_from].
  - destruct (flush scope p) as [e | scope'] eqn:Ef; [ discriminate | ].
    destruct parents; [ | discriminate ].
    intros [= <-]. exact (flush_NoDup _ _ _ Hs Hp Ef).
  - destruct (JS.is_upper c).
    { destruct (flush scope p) as [e | scope'] eqn:Ef; [ discriminate | ].
      apply IH; [ exact (flush_NoDup _ _ _ Hs Hp Ef) | exact Hps | exact I ]. }
    destruct (JS.is_lower c).
    { destruct p as [ | sym lit | ]; try discriminate.
      destruct lit; try discriminate. apply IH; [ exact Hs | exact Hps | exact I ]. }
    destruct (JS.is_digit c || Ascii.eqb c ".").
    { destruct p; try discriminate; apply IH; assumption. }
    destruct (Ascii.eqb c "(").
    { destruct (flush scope p) as [e | scope'] eqn:Ef; [ discriminate | ].
      apply IH; [ constructor | | exact I ].
      constructor; [ exact (flush_NoDup _ _ _ Hs Hp Ef) | exact Hps ]. }
    destruct (Ascii.eqb c ")"); [ | discriminate ].
    destruct (flush scope p) as [e | scope'] eqn:Ef; [ discriminate | ].
    destruct parents as [ | par rest ]; [ discriminate | ].
    inversion Hps; subst.
    apply IH; [ assumption | assumption | exact (flush_NoDup _ _ _ Hs Hp Ef) ].
Qed.

Lemma parse_NoDup (f : string) (g : ElementCounts) :
  parse f = inr g -> NoDup (JSMap.keys g).
Proof.
  apply parse_from_NoDup; [ constructor | constructor | exact I ].
Qed.

End Parser.

(** C4. [parse("Ca3(PO4)2")] succeeds with the counts Ca 3, P 2, O 8.  In
    general, when a formula [f] parses to the counts [g], the group [(f)]
    followed by a numeric literal of value [n] leaves the enclosing scope with
    every count of [g] multiplied by [n] and added to it: a symbol present on
    both sides gets the sum, a symbol present on one side keeps that side's
    count. *)
Theorem parse_group_multiplier :
  Chemistry.parse "Ca3(PO4)2"
  = inr [("Ca", 3%float); ("P", 2%float); ("O", 8%float)]
  /\ (forall f g lit n scope,
        Chemistry.parse f = inr g ->
        literalChars lit = true ->
        Chemistry.numeric_literal lit = Some n ->
        Chemistry.parse_from ("(" ++ f ++ ")" ++ lit) scope [] Chemistry.NoToken
        = inr (Chemistry.merge_into scope (Chemistry.scale n g))
        /\ (forall k,
              JSMap.get k (Chemistry.merge_into scope (Chemistry.scale n g))
              = match JSMap.get k scope, JSMap.get k g with
                | Some a, Some b => Some (a + b * n)%float
                | Some a, None => Some a
                | None, Some b => Some (b * n)%float
                | None, None => None
                end)).
Proof.
  split; [ vm_compute; reflexivity | ].
  intros f g lit n scope Hf Hlit Hn. split.
  - change ("(" ++ f ++ ")" ++ lit)%string
      with (String "(" (f ++ String ")" lit)).
    pose proof (parse_from_inner f [] [] Chemistry.NoToken g Hf lit scope [])
      as Hinner.
    cbn [app] in Hinner.
    cbn [Chemistry.parse_from].
    change (JS.is_upper "(") with false. change (JS.is_lower "(") with false.
    change (JS.is_digit "(" || Ascii.eqb "(" ".") with false.
    change (Ascii.eqb "(" "(") with true.
    cbn iota. cbn [Chemistry.flush].
    rewrite Hinner, (parse_from_literal lit Hlit).
    cbn [String.append Chemistry.flush].
    now rewrite Hn.
  - intros k. rewrite get_merge_into.
    + rewrite get_scale. now destruct (JSMap.get k scope), (JSMap.get k g).
    + rewrite keys_scale. exact (parse_NoDup f g Hf).
Qed.

(** The group of the phosphate: its counts are doubled and added to a scope
    that holds calcium and some oxygen already. *)
Lemma parse_group_multiplier_witness :
  Chemistry.parse_from "(PO4)2" [("Ca", 3%float); ("O", 1%float)] []
    Chemistry.NoToken
  = inr [("Ca", 3%float); ("O", 9%float); ("P", 2%float)]
  /\ JSMap.get "O"
       (Chemistry.merge_into [("Ca", 3%float); ("O", 1%float)]
          (Chemistry.scale 2 [("P", 1%float); ("O", 4%float)]))
     = Some (1 + 4 * 2)%float.
Proof.
  destruct parse_group_multiplier as [_ Hgroup].
  destruct (Hgroup "PO4" [("P", 1%float); ("O", 4%float)] "2" 2%float
              [("Ca", 3%float); ("O", 1%float)])
    as [Hparse Hget]; try reflexivity.
  split.
  - change ("(PO4)2") with ("(" ++ "PO4" ++ ")" ++ "2")%string.
    rewrite Hparse. vm_compute. reflexivity.
  - rewrite Hget. reflexivity.
Defined.

(** ** The normalizer *)

(** C6. When the total of the raw quantities is 0 the normalizer returns 0
    for every component, in the same number as the inputs: no entry is a
    quotient by the total, so none is NaN or infinite. *)
Theorem normalize_zero_total
    (cs : list Chemistry.Weighted) (desiredTotalMass : JS.number) :
  (Chemistry.total cs =? 0)%float = true ->
  Chemistry.normalize cs desiredTotalMass = map (fun _ => 0%float) cs
  /\ List.length (Chemistry.normalize cs desiredTotalMass) = List.length cs
  /\ (forall x, In x (Chemistry.normalize cs desiredTotalMass) ->
        x = 0%float
        /\ PrimFloat.is_nan x = false /\ PrimFloat.is_infinity x = false).
Proof.
  intros Ht.
  assert (Hn : Chemistry.normalize cs desiredTotalMass = map (fun _ => 0%float) cs).
  { unfold Chemistry.normalize. now rewrite Ht. }
  split; [ exact Hn | split ].
  - now rewrite Hn, length_map.
  - intros x Hx. rewrite Hn in Hx. apply in_map_iff in Hx.
    destruct Hx as [_ [<- _]]. repeat split; reflexivity.
Qed.

(** Two components whose raw quantities cancel, and one without weight. *)
Lemma normalize_zero_total_witness :
  Chemistry.normalize
    [ {| Chemistry.matrixPercent := 50; Chemistry.weight := 40;
         Chemistry.moleRatio := 1 |};
      {| Chemistry.matrixPercent := -50; Chemistry.weight := 40;
         Chemistry.moleRatio := 1 |};
      {| Chemistry.matrixPercent := 20; Chemistry.weight := 0;
         Chemistry.moleRatio := 1 |} ]%float 5%float
  = [0%float; 0%float; 0%float].
Proof.
  apply normalize_zero_total. vm_compute. reflexivity.
Defined.

(** ** Zero in binary64 arithmetic *)

Section FloatZero.

Open Scope float_scope.

Lemma zero_form (x : float) :
  (x =? 0) = true -> exists s, Prim2SF x = S754_zero s.
Proof.
  rewrite FloatAxioms.eqb_spec. change (Prim2SF 0) with (S754_zero false).
  destruct (Prim2SF x) as [s | s | | s m e].
  - intros _. now exists s.
  - destruct s; discriminate.
  - discriminate.
  - destruct s; discriminate.
Qed.

Lemma zero_of_form (x : float) (s : bool) :
  Prim2SF x = S754_zero s -> (x =? 0) = true.
Proof.
  intros H. rewrite FloatAxioms.eqb_spec, H. reflexivity.
Qed.

Lemma finite_form (y : float) :
  is_finite y = true ->
  (exists s, Prim2SF y = S754_zero s) \/ (exists s m e, Prim2SF y = S754_finite s m e).
Proof.
  unfold is_finite, is_nan, is_infinity.
  rewrite !FloatAxioms.eqb_spec, abs_spec. change (Prim2SF infinity) with (S754_infinity false).
  destruct (Prim2SF y) as [s | s | | s m e].
  - intros _. left. now exists s.
  - destruct s; discriminate.
  - discriminate.
  - intros _. right. now exists s, m, e.
Qed.

Lemma positive_form (d : float) :
  (0 <? d) = true ->
  Prim2SF d = S754_infinity false \/ (exists m e, Prim2SF d = S754_finite false m e).
Proof.
  rewrite ltb_spec. change (Prim2SF 0) with (S754_zero false).
  destruct (Prim2SF d) as [s | s | | s m e].
  - destruct s; discriminate.
  - destruct s; [ discriminate | ]. intros _. now left.
  - discriminate.
  - destruct s; [ discriminate | ]. intros _. right. now exists m, e.
Qed.

Lemma mul_zero_finite (x y : float) :
  (x =? 0) = true -> is_finite y = true -> (x * y =? 0) = true.
Proof.
  intros Hx Hy. destruct (zero_form x Hx) as [s Es].
  destruct (finite_form y Hy) as [[s' E'] | [s' [m [e E']]]];
    apply (zero_of_form _ (xorb s s')); rewrite mul_spec, Es, E'; reflexivity.
Qed.

Lemma div_zero_positive (x d : float) :
  (x =? 0) = true -> (0 <? d) = true -> (x / d =? 0) = true.
Proof.
  intros Hx Hd. destruct (zero_form x Hx) as [s Es].
  destruct (positive_form d Hd) as [E' | [m [e E']]];
    apply (zero_of_form _ (xorb s false)); rewrite div_spec, Es, E'; reflexivity.
Qed.

End FloatZero.

(** ** Gravimetric factors *)




(** ** Undefined molecular weights *)

Lemma weigh_unknown (counts : Chemistry.ElementCounts)
    (atomics : list AtomicMass) (sym : string) :
  In sym (JSMap.keys counts) ->
  Chemistry.atomicMass sym atomics = None ->
  forall acc, Chemistry.weigh counts atomics acc = None.
Proof.
  induction counts as [ | [k n] counts IH]; cbn; intros Hin Hnone acc.
  - contradiction.
  - destruct (Chemistry.atomicMass k atomics) as [m | ] eqn:Ek; [ | reflexivity ].
    destruct Hin as [-> | Hin]; [ congruence | ].
    now apply IH.
Qed.

Lemma nth_error_update {A : Type} (f : A -> A) (l : list A) :
  forall i, nth_error (update i f l) i = option_map f (nth_error l i).
Proof.
  induction l as [ | x l IH]; intros [ | i]; cbn; try reflexivity.
  apply IH.
Qed.

Lemma compResults_formula_only (formula : string) (matrix : JS.number)
    (products : list Product.t) :
  map ComponentResult.molQty
    (compResults [Component.mk formula matrix 0] products)
  = [ ((matrix * 0 * moleRatio formula products) / 1000)%float ].
Proof.
  cbn. now rewrite molesOf_moleRatio.
Qed.

(** C1, as the code has it.  When the formula does not parse, or names a
    symbol that the table does not have, [molecularWeight] is undefined and
    so is every gravimetric factor computed from the formula; but the weight
    that the provider stores for a component is [molecularWeight(...) || 0],
    which is then the number 0, and the raw quantity of the component is
    computed from that 0. *)
Theorem undefined_weight_stored_as_zero
    (formula : string) (table : list AtomicMass) :
  (exists e, Chemistry.parse formula = inl e)
  \/ (exists counts sym,
        Chemistry.parse formula = inr counts
        /\ In sym (JSMap.keys counts)
        /\ Chemistry.atomicMass sym table = None) ->
  Chemistry.molecularWeight formula table = None
  /\ (forall other precursorMoles productMoles,
        Chemistry.calculateGF formula other precursorMoles productMoles table
        = None
        /\ Chemistry.calculateGF other formula precursorMoles productMoles table
           = None)
  /\ storedWeight formula table = 0%float
  /\ (forall st i c,
        atomics st = table ->
        nth_error (components st) i = Some c ->
        nth_error
          (components (handleComponentChange i (FormulaField formula) st)) i
        = Some (Component.mk formula (Component.matrix c) 0))
  /\ (forall st i c,
        atomics st = table ->
        nth_error (components st) i = Some c ->
        Component.formula c = formula ->
        nth_error (components (atomicsEffect st)) i
        = Some (Component.mk formula (Component.matrix c) 0))
  /\ (forall matrix products,
        map ComponentResult.molQty
          (compResults [Component.mk formula matrix 0] products)
        = [ ((matrix * 0 * moleRatio formula products) / 1000)%float ]).
Proof.
  intros Hbad.
  assert (Hmw : Chemistry.molecularWeight formula table = None).
  { unfold Chemistry.molecularWeight.
    destruct Hbad as [[e He] | [counts [sym [Hp [Hin Hnone]]]]].
    - now rewrite He.
    - rewrite Hp. now apply (weigh_unknown counts table sym). }
  assert (Hstored : storedWeight formula table = 0%float).
  { unfold storedWeight. rewrite Hmw. now destruct table. }
  split; [ exact Hmw | ].
  split.
  { intros other pm qm. unfold Chemistry.calculateGF. rewrite Hmw. split.
    - reflexivity.
    - now destruct (Chemistry.molecularWeight other table). }
  split; [ exact Hstored | ].
  split.
  { intros st i c Ht Hc. cbn [handleComponentChange components].
    rewrite nth_error_update, Hc, Ht, Hmw. reflexivity. }
  split.
  { intros st i c Ht Hc Hf. cbn [atomicsEffect components].
    rewrite nth_error_map, Hc. cbn [option_map].
    now rewrite Ht, Hf, Hstored. }
  intros matrix products. apply compResults_formula_only.
Qed.

(** Sodium chloride against a table without sodium and chlorine. *)
Lemma undefined_weight_stored_as_zero_witness :
  Chemistry.molecularWeight "NaCl" (atomics loaded) = None
  /\ storedWeight "NaCl" (atomics loaded) = 0%float
  /\ nth_error (components withUnknown) 0 = Some (Component.mk "NaCl" 30 0).
Proof.
  destruct (undefined_weight_stored_as_zero "NaCl" (atomics loaded))
    as [Hmw [_ [Hstored [Hchange _]]]].
  - right. exists [("Na", 1%float); ("Cl", 1%float)], "Na".
    split; [ reflexivity | split; [ now left | reflexivity ] ].
  - split; [ exact Hmw | split; [ exact Hstored | ] ].
    apply (Hchange loaded 0%nat (Component.mk "CaO" 30 56.077000000000005%float)).
    + reflexivity.
    + vm_compute. reflexivity.
Defined.

(** C1 as stated fails for the weights of the components: the undefined
    weight of a formula with unknown symbols is stored as the number 0, and
    the raw quantity computed from it is 0, not an undefined value. *)
Lemma unknown_symbol_weight_counterexample :
  Chemistry.molecularWeight "NaCl" (atomics withUnknown) = None
  /\ map Component.formula (components withUnknown) = ["NaCl"; "La2O3"; "H3BO3"]
  /\ option_map Component.mw (nth_error (components withUnknown) 0)
     = Some 0%float
  /\ option_map ComponentResult.molQty
       (nth_error
          (compResults (components withUnknown) (products withUnknown)) 0)
     = Some 0%float.
Proof.
  repeat split; vm_compute; reflexivity.
Qed.

(** * Further properties of the provider *)

(** ** The effect on the products *)

Lemma mapiFrom_length {A B : Type} (f : A -> nat -> B) (l : list A) :
  forall i, List.length (mapiFrom i f l) = List.length l.
Proof.
  induction l as [ | x l IH]; intros i; cbn; [ reflexivity | now rewrite IH ].
Qed.

Lemma nth_error_mapiFrom {A B : Type} (f : A -> nat -> B) (l : list A) :
  forall i k,
  nth_error (mapiFrom i f l) k
  = option_map (fun x => f x (i + k)%nat) (nth_error l k).
Proof.
  induction l as [ | x l IH]; intros i [ | k]; cbn; try reflexivity.
  - now rewrite Nat.add_0_r.
  - rewrite IH. now rewrite Nat.add_succ_r.
Qed.

Lemma nth_error_mapi {A B : Type} (f : A -> nat -> B) (l : list A) (k : nat) :
  nth_error (mapi f l) k = option_map (fun x => f x k) (nth_error l k).
Proof. unfold mapi. now rewrite nth_error_mapiFrom. Qed.

Lemma resizeProducts_length (n : Z) (prev : list Product.t) :
  (0 <= n)%Z -> Z.of_nat (List.length (resizeProducts n prev)) = n.
Proof.
  intros Hn. unfold resizeProducts, JS.sliceTo.
  destruct (Z.ltb_spec (Z.of_nat (List.length prev)) n) as [Hlt | Hge].
  - rewrite length_app, repeat_length. lia.
  - destruct (Z.ltb_spec n (Z.of_nat (List.length prev))) as [Hlt | Hge'].
    + destruct (Z.ltb_spec n 0) as [Hneg | _]; [ lia | ].
      rewrite length_firstn. lia.
    + lia.
Qed.

Lemma resizeProducts_same (n : Z) (prev : list Product.t) :
  Z.of_nat (List.length prev) = n -> resizeProducts n prev = prev.
Proof.
  intros Hn. unfold resizeProducts.
  destruct (Z.ltb_spec (Z.of_nat (List.length prev)) n) as [Hlt | _]; [ lia | ].
  destruct (Z.ltb_spec n (Z.of_nat (List.length prev))) as [Hlt | _]; [ lia | ].
  reflexivity.
Qed.


Lemma someComponent_In (formula : string) (components : list Component.t) :
  someComponent formula components = true
  <-> exists c, In c components /\ Component.formula c = formula.
Proof.
  unfold someComponent. rewrite existsb_exists. split.
  - intros [c [Hin Heq]]. exists c. split; [ exact Hin | now apply String.eqb_eq ].
  - intros [c [Hin Heq]]. exists c. split; [ exact Hin | now apply String.eqb_eq ].
Qed.


(** A linked product names a component as its precursor when the component at
    its index has a formula. *)
Lemma linkPrecursor_linked (components : list Component.t) (prod : Product.t)
    (index : nat) (comp : Component.t) :
  nth_error components index = Some comp ->
  JS.nonempty (Component.formula comp) = true ->
  let q := linkPrecursor components prod index in
  JS.nonempty (Product.precursorFormula q) = true
  /\ someComponent (Product.precursorFormula q) components = true.
Proof.
  intros Hc Hf. unfold linkPrecursor. rewrite Hc, Hf.
  destruct (JS.nonempty (Product.precursorFormula prod)) eqn:Ep; cbn [negb orb].
  - destruct (someComponent (Product.precursorFormula prod) components) eqn:Es;
      cbn [negb].
    + now split.
    + cbn. split; [ exact Hf | ].
      apply someComponent_In. exists comp.
      split; [ now apply nth_error_In with index | reflexivity ].
  - cbn. split; [ exact Hf | ].
    apply someComponent_In. exists comp.
    split; [ now apply nth_error_In with index | reflexivity ].
Qed.

Lemma linkPrecursor_idempotent (components : list Component.t)
    (prod : Product.t) (index : nat) :
  linkPrecursor components (linkPrecursor components prod index) index
  = linkPrecursor components prod index.
Proof.
  destruct (nth_error components index) as [comp | ] eqn:Hc.
  - destruct (JS.nonempty (Component.formula comp)) eqn:Hf.
    + destruct (linkPrecursor_linked components prod index comp Hc Hf)
        as [Hne Hsome].
      unfold linkPrecursor at 1. now rewrite Hc, Hf, Hne, Hsome.
    + unfold linkPrecursor. rewrite Hc, Hf. cbn. now rewrite ?Hc, ?Hf.
  - unfold linkPrecursor. rewrite Hc. cbn. now rewrite ?Hc.
Qed.

Lemma mapiFrom_idempotent {A : Type} (f : A -> nat -> A) (l : list A) :
  (forall x i, f (f x i) i = f x i) ->
  forall i, mapiFrom i f (mapiFrom i f l) = mapiFrom i f l.
Proof.
  intros Hf. induction l as [ | x l IH]; intros i; cbn; [ reflexivity | ].
  now rewrite Hf, IH.
Qed.



(** X2. After the effect, wherever the component at a place has a formula,
    the product at the same place names a precursor, and that precursor is
    the formula of some component. *)
Theorem productsUpdater_links_precursors
    (n : Z) (components : list Component.t) (prev : list Product.t)
    (k : nat) (c : Component.t) (q : Product.t) :
  nth_error components k = Some c ->
  JS.nonempty (Component.formula c) = true ->
  nth_error (productsUpdater n components prev) k = Some q ->
  JS.nonempty (Product.precursorFormula q) = true
  /\ exists c', In c' components
                /\ Component.formula c' = Product.precursorFormula q.
Proof.
  intros Hc Hf Hq. unfold productsUpdater in Hq.
  rewrite nth_error_mapi in Hq.
  destruct (nth_error (resizeProducts n prev) k) as [p | ]; [ | discriminate ].
  cbn in Hq. injection Hq as <-.
  destruct (linkPrecursor_linked components p k c Hc Hf) as [Hne Hsome].
  split; [ exact Hne | ]. now apply someComponent_In.
Qed.

(** A product left over from another batch is linked to the component at its
    place. *)
Lemma productsUpdater_links_precursors_witness :
  JS.nonempty "CaO" = true
  /\ exists c', In c' [Component.mk "CaO" 30 0]
                /\ Component.formula c' = "CaO".
Proof.
  apply (productsUpdater_links_precursors 1 [Component.mk "CaO" 30 0]
           [Product.mk "B2O3" 0 None "H3BO3" 2 1] 0
           (Component.mk "CaO" 30 0)
           (Product.mk "B2O3" 0 None "CaO" 2 1)); reflexivity.
Defined.

(** X3. For an integer [numProducts >= 0] the effect is idempotent: running
    it again on its own result, with the same components, changes
    nothing. *)
Theorem productsUpdater_idempotent
    (n : Z) (components : list Component.t) (prev : list Product.t) :
  (0 <= n)%Z ->
  productsUpdater n components (productsUpdater n components prev)
  = productsUpdater n components prev.
Proof.
  intros Hn.
  assert (Hlen : Z.of_nat (List.length (productsUpdater n components prev)) = n).
  { unfold productsUpdater, mapi. rewrite mapiFrom_length.
    now apply resizeProducts_length. }
  unfold productsUpdater at 1. rewrite (resizeProducts_same _ _ Hlen).
  unfold productsUpdater, mapi. apply mapiFrom_idempotent.
  intros p i. apply linkPrecursor_idempotent.
Qed.

(** The default batch grown to five places. *)
Lemma productsUpdater_idempotent_witness :
  productsUpdater 5 (components initial)
    (productsUpdater 5 (components initial) (products initial))
  = productsUpdater 5 (components initial) (products initial).
Proof.
  apply productsUpdater_idempotent. lia.
Defined.

(** ** Resizing the components, further *)

(** X4. A negative count does not empty the list at once: [slice(0, n)]
    counts from the end, so the last [-n] components are dropped (all of
    them when there are no more than that). *)
Theorem resizeComponents_negative (n : Z) (prev : list Component.t) :
  (n < 0)%Z ->
  resizeComponents n prev
  = firstn (Z.to_nat (Z.of_nat (List.length prev) + n)) prev
  /\ Z.of_nat (List.length (resizeComponents n prev))
     = Z.max (Z.of_nat (List.length prev) + n) 0.
Proof.
  intros Hn.
  assert (Heq : resizeComponents n prev
                = firstn (Z.to_nat (Z.of_nat (List.length prev) + n)) prev).
  { unfold resizeComponents, JS.sliceTo.
    destruct (Z.ltb_spec (Z.of_nat (List.length prev)) n) as [Hlt | _]; [ lia | ].
    destruct (Z.ltb_spec n 0) as [_ | Hge]; [ | lia ].
    f_equal. lia. }
  split; [ exact Heq | ].
  rewrite Heq, length_firstn. lia.
Qed.

(** Three components and the count -1: the first two are left. *)
Lemma resizeComponents_negative_witness :
  resizeComponents (-1) (components initial)
  = firstn 2 (components initial).
Proof.
  destruct (resizeComponents_negative (-1) (components initial)) as [Heq _].
  - lia.
  - rewrite Heq. reflexivity.
Defined.



(** ** The handlers *)

Lemma update_length {A : Type} (f : A -> A) (l : list A) :
  forall i, List.length (update i f l) = List.length l.
Proof.
  induction l as [ | x l IH]; intros [ | i]; cbn; try reflexivity.
  now rewrite IH.
Qed.

Lemma nth_error_update_other {A : Type} (f : A -> A) (l : list A) :
  forall i j, i <> j -> nth_error (update i f l) j = nth_error l j.
Proof.
  induction l as [ | x l IH]; intros [ | i] [ | j] Hne; cbn; try reflexivity.
  - contradiction.
  - apply IH. congruence.
Qed.

(** X6. A change of a component at a place [i] of the list of components
    keeps the table, the counts and the lengths of both lists, and leaves
    every component and every product at another place as it was.  A change of the matrix value leaves the
    products alone and keeps the formula and the weight of the component; a
    change of the formula keeps its matrix value and, in the product at the
    same place, everything but the precursor formula. *)
Theorem handleComponentChange_frame
    (i : nat) (field : ComponentField) (st : State) :
  (i < List.length (components st))%nat ->
  let st' := handleComponentChange i field st in
  atomics st' = atomics st
  /\ numComponents st' = numComponents st
  /\ numProducts st' = numProducts st
  /\ desiredBatch st' = desiredBatch st
  /\ List.length (components st') = List.length (components st)
  /\ List.length (products st') = List.length (products st)
  /\ (forall j, j <> i ->
        nth_error (components st') j = nth_error (components st) j
        /\ nth_error (products st') j = nth_error (products st) j)
  /\ match field with
     | MatrixField value =>
         products st' = products st
         /\ (forall c, nth_error (components st) i = Some c ->
               nth_error (components st') i
               = Some (Component.mk (Component.formula c) value
                         (Component.mw c)))
     | FormulaField value =>
         (forall c, nth_error (components st) i = Some c ->
            exists c', nth_error (components st') i = Some c'
                       /\ Component.formula c' = value
                       /\ Component.matrix c' = Component.matrix c)
         /\ (forall p, nth_error (products st) i = Some p ->
               nth_error (products st') i
               = Some (Product.mk (Product.formula p) (Product.mw p)
                         (Product.gf p) value (Product.precursorMoles p)
                         (Product.productMoles p)))
     end.
Proof.
  intros _.
  destruct field as [value | value];
    cbn [handleComponentChange atomics numComponents numProducts desiredBatch
         components products];
    rewrite ?update_length;
    repeat (split; [ reflexivity | ]).
  - split.
    + intros j Hj. now rewrite !nth_error_update_other by congruence.
    + split.
      * intros c Hc. rewrite nth_error_update, Hc. cbn. eexists.
        split; [ reflexivity | now split ].
      * intros p Hp. now rewrite nth_error_update, Hp.
  - split.
    + intros j Hj. now rewrite nth_error_update_other by congruence.
    + split; [ reflexivity | ].
      intros c Hc. now rewrite nth_error_update, Hc.
Qed.

(** The matrix value of the second component of the loaded state is
    changed. *)
Lemma handleComponentChange_frame_witness :
  let st' := handleComponentChange 1 (MatrixField 25) loaded in
  List.length (components st') = List.length (components loaded)
  /\ products st' = products loaded
  /\ nth_error (components st') 0 = nth_error (components loaded) 0.
Proof.
  destruct (handleComponentChange_frame 1 (MatrixField 25) loaded)
    as (_ & _ & _ & _ & Hlen & _ & Hother & Hprod & _);
    [ vm_compute; lia | ].
  split; [ exact Hlen | split; [ exact Hprod | ] ].
  now destruct (Hother 0%nat ltac:(discriminate)) as [Hc _].
Defined.

(** X7. A formula typed for the component at place [i] stays the precursor
    of the product at that place through the effect on the products: the
    handler writes it there, and the effect, finding it among the formulas of
    the components, keeps it. *)
Theorem formula_change_links_product
    (i : nat) (value : string) (st : State) (c : Component.t) (p : Product.t) :
  nth_error (components st) i = Some c ->
  nth_error (products st) i = Some p ->
  numProducts st = Z.of_nat (List.length (products st)) ->
  JS.nonempty value = true ->
  nth_error
    (products (productsEffect (handleComponentChange i (FormulaField value) st)))
    i
  = Some (Product.mk (Product.formula p) (Product.mw p) (Product.gf p) value
            (Product.precursorMoles p) (Product.productMoles p)).
Proof.
  intros Hc Hp Hn Hv.
  cbn [productsEffect handleComponentChange products components numProducts].
  unfold productsUpdater.
  rewrite resizeProducts_same by (rewrite update_length; now symmetry).
  rewrite nth_error_mapi, nth_error_update, Hp. cbn [option_map].
  f_equal. unfold linkPrecursor.
  rewrite nth_error_update, Hc. cbn [option_map Component.formula].
  rewrite Hv. cbn [Product.precursorFormula]. rewrite Hv. cbn [negb orb].
  replace (someComponent value _) with true; [ reflexivity | ].
  symmetry. apply someComponent_In.
  eexists. split.
  - apply nth_error_In with i. rewrite nth_error_update, Hc. reflexivity.
  - reflexivity.
Qed.

(** Calcium oxide replaced by calcium carbonate in the default batch. *)
Lemma formula_change_links_product_witness :
  nth_error
    (products
       (productsEffect (handleComponentChange 0 (FormulaField "CaCO3") initial)))
    0
  = Some (Product.mk "B2O3" 0 None "CaCO3" 2 1).
Proof.
  apply (formula_change_links_product 0 "CaCO3" initial
           (Component.mk "CaO" 30 0) (Product.mk "B2O3" 0 None "H3BO3" 2 1));
    reflexivity.
Defined.

(** X8. A change of a product at place [i] leaves the table, the components
    and every other product as they were.  The changed product gets its
    gravimetric factor computed again from its own new fields when both its
    precursor formula and its formula are present; otherwise its factor stays
    the one it had, whatever the new fields are. *)
Theorem handleProductChange_refreshes_factor
    (i : nat) (field : ProductField) (st : State) (p : Product.t) :
  nth_error (products st) i = Some p ->
  let st' := handleProductChange i field st in
  atomics st' = atomics st
  /\ components st' = components st
  /\ List.length (products st') = List.length (products st)
  /\ (forall j, j <> i -> nth_error (products st') j = nth_error (products st) j)
  /\ exists q,
       nth_error (products st') i = Some q
       /\ Product.gf q
          = if JS.nonempty (Product.precursorFormula q)
               && JS.nonempty (Product.formula q)
            then Chemistry.calculateGF (Product.precursorFormula q)
                   (Product.formula q) (Product.precursorMoles q)
                   (Product.productMoles q) (atomics st)
            else Product.gf p.
Proof.
  intros Hp.
  cbn [handleProductChange atomics components products].
  rewrite update_length.
  repeat (split; [ reflexivity | ]).
  split.
  - intros j Hj. now rewrite nth_error_update_other by congruence.
  - rewrite nth_error_update, Hp. cbn [option_map]. eexists.
    split; [ reflexivity | ].
    unfold refreshGF.
    set (p' := setProductField field (atomics st) p).
    assert (Hgf : Product.gf p' = Product.gf p).
    { subst p'. now destruct field. }
    destruct (JS.nonempty (Product.precursorFormula p')
              && JS.nonempty (Product.formula p')) eqn:Eb.
    + cbn. now rewrite Eb.
    + now rewrite Eb.
Qed.

(** A product whose formula is cleared keeps its factor. *)
Lemma handleProductChange_refreshes_factor_witness :
  exists q,
    nth_error
      (products (handleProductChange 0 (ProductFormulaField "") withFactor)) 0
    = Some q
    /\ Product.formula q = ""
    /\ Product.gf q = Some 6%float.
Proof.
  destruct (handleProductChange_refreshes_factor 0 (ProductFormulaField "")
              withFactor (Product.mk "B" 30 (Some 6%float) "A" 1 2))
    as [_ [_ [_ [_ [q [Hq Hgf]]]]]].
  - reflexivity.
  - exists q. split; [ exact Hq | ].
    cbn in Hq. injection Hq as <-. split; reflexivity.
Defined.

(** ** The maps of the render *)

Lemma productMolesMap_collect (products : list Product.t) :
  productMolesMap products
  = collect (fun p => JS.nonempty (Product.formula p))
      Product.formula Product.productMoles products [].
Proof. reflexivity. Qed.

Lemma or_else_truthy (x d : JS.number) :
  JS.truthy d = true -> JS.truthy (JS.or_else x d) = true.
Proof.
  intros Hd. unfold JS.or_else. now destruct (JS.truthy x) eqn:Ex.
Qed.

(** X9. The mole ratio read from a map of moles is never 0 and never NaN,
    whatever the map holds and whether or not it has the formula: a stored 0
    or NaN gives way to 1 as a missing entry does.  So no product can bring
    the raw quantity of a precursor to 0 or NaN through its moles. *)
Theorem molesOf_truthy (molesMap : JSMap.t JS.number) (formula : string) :
  JS.truthy (molesOf molesMap formula) = true
  /\ PrimFloat.is_nan (molesOf molesMap formula) = false
  /\ PrimFloat.is_zero (molesOf molesMap formula) = false
  /\ (forall v, JSMap.get formula molesMap = Some v ->
        JS.truthy v = false -> molesOf molesMap formula = 1%float).
Proof.
  assert (Ht : JS.truthy (molesOf molesMap formula) = true).
  { unfold molesOf, JS.opt_or_else.
    destruct (JSMap.get formula molesMap) as [v | ]; [ | reflexivity ].
    now apply or_else_truthy. }
  split; [ exact Ht | ].
  unfold JS.truthy in Ht. apply negb_true_iff, orb_false_iff in Ht.
  destruct Ht as [Hz Hn].
  split; [ exact Hn | split; [ exact Hz | ] ].
  intros v Hv Hf. unfold molesOf, JS.opt_or_else, JS.or_else.
  now rewrite Hv, Hf.
Qed.

(** X10. The keys of [precursorGfMap] are pairwise distinct and non-empty,
    and each is both the formula of a component and the precursor formula of
    a product that has a gravimetric factor and a formula; and the view with
    gravimetric factors is switched on exactly when this map has an
    entry. *)
Theorem precursorGfMap_keys
    (components : list Component.t) (products : list Product.t) :
  NoDup (JSMap.keys (precursorGfMap components products))
  /\ (forall k, In k (JSMap.keys (precursorGfMap components products)) ->
        JS.nonempty k = true
        /\ (exists c, In c components /\ Component.formula c = k)
        /\ (exists p g, In p products
                        /\ Product.precursorFormula p = k
                        /\ Product.gf p = Some g
                        /\ JS.nonempty (Product.formula p) = true))
  /\ (hasValidProductsWithGF components products = true
      <-> precursorGfMap components products <> []).
Proof.
  assert (Hkeys : JSMap.keys (precursorGfMap components products)
                  = firstOccurrences
                      (map Product.precursorFormula
                         (filter (hasGF components) products))).
  { rewrite precursorGfMap_collect, keys_collect. cbn [JSMap.keys map app].
    apply filter_true. }
  split; [ | split ].
  - rewrite Hkeys. apply firstOccurrences_NoDup.
  - intros k Hk. rewrite Hkeys in Hk.
    apply firstOccurrences_In, in_map_iff in Hk.
    destruct Hk as [p [Hpf Hp]]. apply filter_In in Hp.
    destruct Hp as [Hin Hg].
    destruct (hasGF_factor components p Hg) as [g Eg].
    unfold hasGF in Hg. rewrite Eg in Hg.
    apply andb_prop in Hg. destruct Hg as [Hg Hsome].
    apply andb_prop in Hg. destruct Hg as [Hg _].
    apply andb_prop in Hg. destruct Hg as [Hne Hf].
    subst k. split; [ exact Hne | split ].
    + now apply someComponent_In.
    + now exists p, g.
  - unfold hasValidProductsWithGF. split.
    + intros Hex Hnil. apply existsb_exists in Hex.
      destruct Hex as [p [Hin Hg]].
      assert (Hk : In (Product.precursorFormula p)
                     (JSMap.keys (precursorGfMap components products))).
      { rewrite Hkeys. apply firstOccurrences_In, in_map_iff.
        exists p. split; [ reflexivity | ]. apply filter_In. now split. }
      now rewrite Hnil in Hk.
    + intros Hne.
      destruct (precursorGfMap components products) as [ | [k v] m] eqn:Em;
        [ contradiction | ].
      assert (Hk : In k (firstOccurrences
                           (map Product.precursorFormula
                              (filter (hasGF components) products)))).
      { rewrite <- Hkeys. now left. }
      apply firstOccurrences_In, in_map_iff in Hk.
      destruct Hk as [p [_ Hp]]. apply filter_In in Hp.
      apply existsb_exists. now exists p.
Qed.

(** X11. Lookup after the loop: every product with a precursor formula finds
    that formula in [precursorMolesMap], under the precursor moles of the last
    product that names it; a formula that no product names as its (non-empty)
    precursor is missing; and the keys are pairwise distinct. *)
Theorem precursorMolesMap_lookup (products : list Product.t) :
  NoDup (JSMap.keys (precursorMolesMap products))
  /\ (forall p, In p products ->
        JS.nonempty (Product.precursorFormula p) = true ->
        exists q,
          In q products
          /\ Product.precursorFormula q = Product.precursorFormula p
          /\ matchedProduct (Product.precursorFormula p) products = Some q
          /\ JSMap.get (Product.precursorFormula p) (precursorMolesMap products)
             = Some (Product.precursorMoles q))
  /\ (forall formula,
        (forall p, In p products ->
           JS.nonempty (Product.precursorFormula p) = true ->
           Product.precursorFormula p <> formula) ->
        JSMap.get formula (precursorMolesMap products) = None).
Proof.
  split; [ | split ].
  - rewrite precursorMolesMap_collect, keys_collect. cbn [JSMap.keys map app].
    rewrite filter_true. apply firstOccurrences_NoDup.
  - intros p Hin Hne. rewrite precursorMolesMap_get.
    destruct (matchedProduct (Product.precursorFormula p) products)
      as [q | ] eqn:Em.
    + exists q. pose proof (lastWith_Some _ _ _ Em) as [Hq Ht].
      apply andb_prop in Ht. destruct Ht as [_ Heq].
      apply String.eqb_eq in Heq. now repeat split.
    + exfalso. unfold matchedProduct in Em.
      rewrite lastWith_None in Em. specialize (Em p Hin).
      now rewrite Hne, String.eqb_refl in Em.
  - intros formula Hnone. rewrite precursorMolesMap_get.
    unfold matchedProduct.
    replace (lastWith _ products) with (@None Product.t); [ reflexivity | ].
    symmetry. apply lastWith_None. intros p Hp.
    destruct (JS.nonempty (Product.precursorFormula p)) eqn:Hne;
      [ | reflexivity ].
    cbn. apply String.eqb_neq. now apply Hnone.
Qed.

(** The default products: boric acid is found with two moles, calcium oxide
    is missing. *)
Lemma precursorMolesMap_lookup_witness :
  JSMap.get "H3BO3" (precursorMolesMap (products initial)) = Some 2%float
  /\ JSMap.get "CaO" (precursorMolesMap (products initial)) = None.
Proof.
  destruct (precursorMolesMap_lookup (products initial))
    as [_ [Hfound Hmissing]].
  split.
  - destruct (Hfound (Product.mk "B2O3" 0 None "H3BO3" 2 1))
      as [q [_ [_ [Hm Hget]]]]; [ now left | reflexivity | ].
    cbn [Product.precursorFormula] in Hget, Hm. rewrite Hget.
    vm_compute in Hm. injection Hm as <-. reflexivity.
  - apply Hmissing. intros p Hp _. cbn in Hp.
    destruct Hp as [<- | [<- | []]]; discriminate.
Defined.

(** ** Products without a precursor among the components *)

(** X12. A product whose precursor formula is the formula of no component
    takes the matrix value 0, so its entry in [productResults] has the raw
    quantity 0 (of either sign) as long as its weight, its factor and its
    product moles are finite numbers. *)
Theorem orphan_product_raw_quantity_zero
    (components : list Component.t) (products : list Product.t)
    (p : Product.t) :
  In p products ->
  findComponent (Product.precursorFormula p) components = None ->
  PrimFloat.is_finite (effectiveMW p) = true ->
  PrimFloat.is_finite (Product.productMoles p) = true ->
  exists r,
    In r (productResults components products)
    /\ ProductResult.item r = p
    /\ (ProductResult.molQty r =? 0)%float = true.
Proof.
  intros Hin Hnone Hmw Hmoles.
  eexists. split; [ | split ].
  - unfold productResults. apply in_map. exact Hin.
  - reflexivity.
  - cbn [ProductResult.molQty].
    assert (Hm : precursorMatrix components p = 0%float).
    { unfold precursorMatrix. now rewrite Hnone. }
    rewrite Hm.
    apply div_zero_positive; [ | reflexivity ].
    apply mul_zero_finite; [ | exact Hmoles ].
    apply mul_zero_finite; [ reflexivity | exact Hmw ].
Qed.

(** Boron oxide from boric acid in a batch that holds calcium oxide only. *)
Lemma orphan_product_raw_quantity_zero_witness :
  exists r,
    In r (productResults [Component.mk "CaO" 30 56]
            [Product.mk "B2O3" 70 (Some 0.5%float) "H3BO3" 2 1])
    /\ ProductResult.item r = Product.mk "B2O3" 70 (Some 0.5%float) "H3BO3" 2 1
    /\ (ProductResult.molQty r =? 0)%float = true.
Proof.
  apply (orphan_product_raw_quantity_zero [Component.mk "CaO" 30 56]
           [Product.mk "B2O3" 70 (Some 0.5%float) "H3BO3" 2 1]
           (Product.mk "B2O3" 70 (Some 0.5%float) "H3BO3" 2 1)).
  - now left.
  - reflexivity.
  - reflexivity.
  - reflexivity.
Defined.

(** ** The hash of a compound *)

Lemma toInt32_mod (z : Z) : (JS.toInt32 z mod 2 ^ 32 = z mod 2 ^ 32)%Z.
Proof.
  unfold JS.toInt32.
  rewrite Zminus_mod_idemp_l. f_equal. lia.
Qed.

Lemma toInt32_congr (a b : Z) :
  (a mod 2 ^ 32 = b mod 2 ^ 32)%Z -> JS.toInt32 a = JS.toInt32 b.
Proof.
  intros H. unfold JS.toInt32. f_equal.
  rewrite <- (Zplus_mod_idemp_l a), <- (Zplus_mod_idemp_l b). now rewrite H.
Qed.

Lemma hashFrom_poly (str : string) :
  forall h, hashFrom (JS.toInt32 h) str = JS.toInt32 (hashPolyFrom h str).
Proof.
  induction str as [ | c str IH]; intros h; cbn [hashFrom hashPolyFrom].
  - reflexivity.
  - rewrite hashStep_31 by apply toInt32_range.
    rewrite <- IH. f_equal. apply toInt32_congr.
    rewrite <- Zplus_mod_idemp_l, <- Zmult_mod_idemp_r, toInt32_mod.
    now rewrite Zmult_mod_idemp_r, Zplus_mod_idemp_l.
Qed.

(** X13. The hash of a text is the polynomial hash in base 31 of its code
    units, [c0 * 31^(n-1) + ... + c(n-1)], wrapped once to a signed 32-bit
    integer: wrapping at every round, as the loop does, loses nothing. *)
Theorem hashCode_polynomial (str : string) :
  hashCode str = JS.toInt32 (hashPoly str)
  /\ (hashCode str mod 2 ^ 32 = hashPoly str mod 2 ^ 32)%Z
  /\ (- 2 ^ 31 <= hashCode str < 2 ^ 31)%Z.
Proof.
  assert (H : hashCode str = JS.toInt32 (hashPoly str)).
  { unfold hashCode, hashPoly. now rewrite <- hashFrom_poly. }
  split; [ exact H | split ].
  - rewrite H. apply toInt32_mod.
  - apply hashCode_int32.
Qed.

(** X14. Every entry of the composition data carries a colour
    [hsl(h, 70%, 60%)] whose hue [h] is an integer from 0 to 359, also when
    the hash of the formula is negative. *)
Theorem composition_hue_in_range
    (cs : list Component.t) (e : ElementComposition) :
  In e (generateCompositionData cs) ->
  exists h,
    (0 <= h < 360)%Z
    /\ color e = ("hsl(" ++ JS.show_int h ++ ", 70%, 60%)")%string.
Proof.
  intros He. exists (hue (element e)). split.
  - apply hue_range.
  - now rewrite (composition_entry_color cs e He).
Qed.

(** Calcium hydroxide, whose hash is negative. *)
Lemma composition_hue_in_range_witness :
  (hashCode "Ca(OH)2" < 0)%Z
  /\ exists h,
       (0 <= h < 360)%Z
       /\ "hsl(4, 70%, 60%)" = ("hsl(" ++ JS.show_int h ++ ", 70%, 60%)")%string.
Proof.
  split; [ reflexivity | ].
  apply (composition_hue_in_range [Component.mk "Ca(OH)2" 10 0]
           {| element := "Ca(OH)2"; percentage := 100;
              color := "hsl(4, 70%, 60%)" |}).
  vm_compute. left. reflexivity.
Defined.

(** ** The size of the composition data *)

Lemma firstOccurrences_length (l : list string) :
  (List.length (firstOccurrences l) <= List.length l)%nat.
Proof.
  induction l as [ | x l IH]; cbn; [ lia | ].
  pose proof (filter_length_le (fun y => negb (String.eqb y x))
                (firstOccurrences l)).
  lia.
Qed.

Lemma filter_none {A : Type} (f : A -> bool) (l : list A) :
  (forall x, In x l -> f x = false) -> filter f l = [].
Proof.
  induction l as [ | x l IH]; cbn; intros Hall; [ reflexivity | ].
  rewrite (Hall x) by now left. apply IH. intros y Hy. apply Hall. now right.
Qed.

(** X15. The composition data has no more entries than there are kept
    components, and it is empty exactly when no component is kept, that is
    when every component lacks a formula or has a matrix value of 0 or
    NaN. *)
Theorem composition_size (cs : list Component.t) :
  (List.length (generateCompositionData cs)
   <= List.length (keptComponents cs) <= List.length cs)%nat
  /\ (generateCompositionData cs = []
      <-> forall c, In c cs -> retained c = false).
Proof.
  assert (Hlen : List.length (generateCompositionData cs)
                 = List.length (keptFormulas cs)).
  { unfold generateCompositionData, JSMap.entries.
    now rewrite length_map, compoundMap_entries, length_map. }
  split.
  - rewrite Hlen. unfold keptFormulas, keptComponents. split.
    + pose proof (firstOccurrences_length
                    (map Component.formula (filter retained cs))) as H.
      now rewrite length_map in H.
    + apply filter_length_le.
  - split.
    + intros Hnil c Hc. destruct (retained c) eqn:Hr; [ | reflexivity ].
      exfalso.
      assert (Hin : In (Component.formula c) (keptFormulas cs)).
      { unfold keptFormulas, keptComponents.
        apply firstOccurrences_In, in_map. apply filter_In. now split. }
      rewrite Hnil in Hlen. cbn in Hlen.
      destruct (keptFormulas cs); [ contradiction | discriminate ].
    + intros Hall. apply length_zero_iff_nil. rewrite Hlen.
      unfold keptFormulas, keptComponents.
      now rewrite (filter_none retained cs Hall).
Qed.

(** ** The warning on the matrix values *)

(** X16. Components whose matrix values are all 0 or NaN add up to a total of
    0, and a total of 0 raises no warning: a batch that has just been resized
    from nothing, or whose matrix fields hold no number, is not told that its
    values do not sum to 100. *)
Theorem totalMatrix_without_values (cs : list Component.t) :
  (forall c, In c cs -> JS.truthy (Component.matrix c) = false) ->
  totalMatrix cs = 0%float /\ warningFor (totalMatrix cs) = "".
Proof.
  intros Hall.
  assert (Ht : totalMatrix cs = 0%float).
  { unfold totalMatrix. induction cs as [ | c cs IH]; cbn; [ reflexivity | ].
    unfold JS.or_else at 2. rewrite (Hall c) by now left.
    change (0 + 0)%float with 0%float.
    apply IH. intros c' Hc'. apply Hall. now right. }
  split; [ exact Ht | ]. now rewrite Ht.
Qed.

(** Two new places and a component whose matrix field holds no number. *)
Lemma totalMatrix_without_values_witness :
  warningFor
    (totalMatrix [emptyComponent; emptyComponent; Component.mk "CaO" JS.NaN 56])
  = "".
Proof.
  apply (totalMatrix_without_values
           [emptyComponent; emptyComponent; Component.mk "CaO" JS.NaN 56]).
  intros c Hc. cbn in Hc.
  destruct Hc as [<- | [<- | [<- | []]]]; reflexivity.
Defined.

(** ** Loading the table, further *)

(** X17. A text that holds a single line once trimmed - an empty file, or a
    header alone - loads as an empty table, and with an empty table the
    effect on [atomics] stores the weight 0 for every component and every
    product, whatever their formulas. *)
Theorem header_only_table (txt : string) (st : State) :
  lacks newline (JS.trim txt) = true ->
  loadAtomics txt = []
  /\ let st' := atomicsEffect (setAtomics (loadAtomics txt) st) in
     map Component.mw (components st')
     = map (fun _ => 0%float) (components st)
     /\ map Product.mw (products st') = map (fun _ => 0%float) (products st)
     /\ map Component.formula (components st')
        = map Component.formula (components st)
     /\ map Component.matrix (components st')
        = map Component.matrix (components st).
Proof.
  intros Hline.
  assert (Hload : loadAtomics txt = []).
  { unfold loadAtomics, dataLines. fold newline.
    now rewrite (split_whole _ _ Hline). }
  split; [ exact Hload | ].
  rewrite Hload.
  cbn [atomicsEffect setAtomics components products atomics storedWeight].
  rewrite !map_map. cbn. repeat split; reflexivity.
Qed.

(** The header of the table alone, with a line break after it. *)
Lemma header_only_table_witness :
  loadAtomics ("AtomicNumber,Element,Symbol,AtomicMass" ++ String newline "")
  = []
  /\ map Component.mw
       (components
          (atomicsEffect
             (setAtomics
                (loadAtomics
                   ("AtomicNumber,Element,Symbol,AtomicMass"
                    ++ String newline ""))
                loaded)))
     = [0%float; 0%float; 0%float].
Proof.
  destruct (header_only_table
              ("AtomicNumber,Element,Symbol,AtomicMass" ++ String newline "")
              loaded) as [Hload [Hmw _]].
  - reflexivity.
  - split; [ exact Hload | ]. rewrite Hmw. reflexivity.
Defined.

Lemma space_not_comma (c : ascii) :
  JS.is_space c = true -> Ascii.eqb c "," = false.
Proof.
  intros Hs. destruct (Ascii.eqb_spec c ",") as [-> | _]; [ | reflexivity ].
  discriminate Hs.
Qed.

Lemma trimEnd_space (s : string) (c : ascii) :
  JS.is_space c = true ->
  JS.trimEnd (s ++ String c "") = JS.trimEnd s.
Proof.
  intros Hc. induction s as [ | a s IH]; cbn.
  - now rewrite Hc.
  - now rewrite IH.
Qed.

(** White space at the end of a text does not count for [trim]. *)
Lemma trim_space (s : string) (c : ascii) :
  JS.is_space c = true -> JS.trim (s ++ String c "") = JS.trim s.
Proof.
  intros Hc. unfold JS.trim. induction s as [ | a s IH].
  - cbn. now rewrite Hc.
  - cbn [String.append JS.trimStart].
    destruct (JS.is_space a); [ exact IH | ].
    change (String a (s ++ String c "")) with (String a s ++ String c "")%string.
    now apply trimEnd_space.
Qed.

Lemma toNumber_space (s : string) (c : ascii) :
  JS.is_space c = true -> JS.toNumber (s ++ String c "") = JS.toNumber s.
Proof.
  intros Hc. unfold JS.toNumber. now rewrite (trim_space s c Hc).
Qed.

Lemma lacks_append (sep : ascii) (a b : string) :
  lacks sep (a ++ b) = lacks sep a && lacks sep b.
Proof.
  induction a as [ | x a IH]; cbn; [ reflexivity | ].
  now rewrite IH, andb_assoc.
Qed.

(** X18. A row of four columns that ends with a carriage return, or with any
    other white space, as the rows of a file with Windows line ends do after
    the split at the line feeds, gives the same entry as the row without it:
    the stray character lands in the column of the mass, and [Number]
    ignores it. *)
Theorem parseRow_trailing_space (n name sym mass : string) (c : ascii) :
  JS.is_space c = true ->
  Forall (fun s => lacks "," s = true) [n; name; sym; mass] ->
  parseRow (join "," [n; name; sym; mass] ++ String c "")
  = parseRow (join "," [n; name; sym; mass])
  /\ parseRow (join "," [n; name; sym; mass] ++ String c "")
     = {| Symbol := Some sym; Atomic_Mass := JS.toNumber mass;
          Element := Some name; Atomic_Number := JS.toNumber n |}.
Proof.
  intros Hc Hcols.
  assert (Hrow : (join "," [n; name; sym; mass] ++ String c "")%string
                 = join "," [n; name; sym; (mass ++ String c "")%string]).
  { cbn [join]. repeat (rewrite append_assoc; cbn [String.append]).
    reflexivity. }
  assert (Hcols' : Forall (fun s => lacks "," s = true)
                     [n; name; sym; (mass ++ String c "")%string]).
  { inversion Hcols as [ | ? ? Hn H1]; subst.
    inversion H1 as [ | ? ? Hname H2]; subst.
    inversion H2 as [ | ? ? Hsym H3]; subst.
    inversion H3 as [ | ? ? Hmass _]; subst.
    repeat constructor; try assumption.
    rewrite lacks_append, Hmass. cbn.
    now rewrite (space_not_comma c Hc). }
  assert (Hentry : parseRow (join "," [n; name; sym; mass] ++ String c "")
                   = {| Symbol := Some sym; Atomic_Mass := JS.toNumber mass;
                        Element := Some name;
                        Atomic_Number := JS.toNumber n |}).
  { rewrite Hrow. unfold parseRow. rewrite (split_join _ _ _ Hcols').
    cbn [nth_error JS.Number]. now rewrite (toNumber_space mass c Hc). }
  split; [ | exact Hentry ].
  rewrite Hentry. unfold parseRow. rewrite (split_join _ _ _ Hcols).
  reflexivity.
Qed.

(** The row of hydrogen with a carriage return at its end. *)
Lemma parseRow_trailing_space_witness :
  parseRow ("1,Hydrogen,H,1.008" ++ String "013" "")
  = {| Symbol := Some "H"; Atomic_Mass := JS.toNumber "1.008";
       Element := Some "Hydrogen"; Atomic_Number := JS.toNumber "1" |}.
Proof.
  apply (parseRow_trailing_space "1" "Hydrogen" "H" "1.008" "013").
  - reflexivity.
  - repeat constructor.
Defined.

(** * Properties of the element suggestions *)

Import ElementAutoSuggest.

(** ** The token at the end of the text *)

Lemma upper_not_lower (c : ascii) :
  JS.is_upper c = true -> JS.is_lower c = false.
Proof.
  unfold JS.is_upper, JS.is_lower. intros H.
  apply andb_prop in H. destruct H as [_ Hhi]. apply Z.leb_le in Hhi.
  apply andb_false_iff. left. apply Z.leb_gt. lia.
Qed.

Lemma space_not_letter (c : ascii) :
  JS.is_space c = true -> JS.is_upper c = false /\ JS.is_lower c = false.
Proof.
  unfold JS.is_space, JS.is_upper, JS.is_lower. intros H.
  assert (Hc : (JS.charCode c <= 32 \/ JS.charCode c = 160)%Z).
  { apply orb_prop in H. destruct H as [H | H].
    - apply orb_prop in H. destruct H as [H | H].
      + apply andb_prop in H. destruct H as [_ H]. apply Z.leb_le in H. lia.
      + apply Z.eqb_eq in H. lia.
    - apply Z.eqb_eq in H. lia. }
  split; apply andb_false_iff.
  - destruct Hc; [ left; apply Z.leb_gt | right; apply Z.leb_gt ]; lia.
  - destruct Hc; [ left; apply Z.leb_gt | right; apply Z.leb_gt ]; lia.
Qed.

Lemma allLower_app (a b : string) :
  allLower (a ++ b) = allLower a && allLower b.
Proof.
  induction a as [ | x a IH]; cbn; [ reflexivity | ].
  now rewrite IH, andb_assoc.
Qed.

Lemma matchToken_sound (s : string) :
  forall before m,
  matchToken s = Some (before, m) ->
  s = (before ++ m)%string
  /\ exists c r, m = String c r /\ JS.is_upper c = true /\ allLower r = true.
Proof.
  induction s as [ | x s IH]; intros before m; cbn; [ discriminate | ].
  destruct (JS.is_upper x && allLower s) eqn:Et.
  - intros [= <- <-]. apply andb_prop in Et. destruct Et as [Hx Hs].
    split; [ reflexivity | ]. now exists x, s.
  - destruct (matchToken s) as [[b m'] | ]; [ | discriminate ].
    intros [= <- <-]. destruct (IH b m' eq_refl) as [Hs Hm].
    split; [ cbn; now rewrite <- Hs | exact Hm ].
Qed.

Lemma matchToken_complete (before : string) (c : ascii) (r : string) :
  JS.is_upper c = true -> allLower r = true ->
  matchToken (before ++ String c r) = Some (before, String c r).
Proof.
  intros Hc Hr. induction before as [ | x before IH]; cbn.
  - now rewrite Hc, Hr.
  - rewrite allLower_app. cbn [allLower].
    rewrite (upper_not_lower c Hc). cbn [andb].
    rewrite !andb_false_r. now rewrite IH.
Qed.

(** A text that ends with a character outside A to Z and a to z has no
    token. *)
Lemma matchToken_no_letter (before : string) (d : ascii) :
  JS.is_upper d = false -> JS.is_lower d = false ->
  matchToken (before ++ String d "") = None.
Proof.
  intros Hu Hl. induction before as [ | x before IH]; cbn.
  - now rewrite Hu.
  - rewrite allLower_app. cbn [allLower]. rewrite Hl. cbn [andb].
    rewrite !andb_false_r. now rewrite IH.
Qed.

(** X19. The token for which elements are suggested is the end of the
    trimmed text from its last capital letter on, when only the letters a to
    z follow that capital; there is no token otherwise, in particular when
    the trimmed text ends with a digit, a parenthesis or any other character
    that is not a letter.  Suggestions are shown exactly when there is a
    token. *)
Theorem lastToken_is_last_symbol (val : string) :
  (forall before c r,
     JS.trim val = (before ++ String c r)%string ->
     JS.is_upper c = true -> allLower r = true ->
     lastToken val = String c r)
  /\ (lastToken val <> "" ->
      exists before c r,
        JS.trim val = (before ++ String c r)%string
        /\ lastToken val = String c r
        /\ JS.is_upper c = true /\ allLower r = true)
  /\ (forall before d,
        JS.trim val = (before ++ String d "")%string ->
        JS.is_upper d = false -> JS.is_lower d = false ->
        lastToken val = "")
  /\ showSuggestions val = JS.nonempty (lastToken val).
Proof.
  split; [ | split; [ | split ] ].
  - intros before c r Ht Hc Hr. unfold lastToken.
    now rewrite Ht, (matchToken_complete before c r Hc Hr).
  - unfold lastToken. intros Hne.
    destruct (matchToken (JS.trim val)) as [[b m] | ] eqn:Em;
      [ | contradiction ].
    destruct (matchToken_sound _ _ _ Em) as [Hs [c [r [Hm [Hc Hr]]]]].
    exists b, c, r. subst m. now repeat split.
  - intros before d Ht Hu Hl. unfold lastToken.
    now rewrite Ht, (matchToken_no_letter before d Hu Hl).
  - unfold showSuggestions, lastToken.
    destruct (matchToken (JS.trim val)) as [[b m] | ] eqn:Em; [ | reflexivity ].
    destruct (matchToken_sound _ _ _ Em) as [_ [c [r [-> [Hc _]]]]].
    cbn. exact Hc.
Qed.

(** A formula in the making: the token is the symbol being typed. *)
Lemma lastToken_is_last_symbol_witness :
  lastToken "  Ca(OH)2La " = "La" /\ lastToken "Ca(OH)2" = "".
Proof.
  destruct (lastToken_is_last_symbol "  Ca(OH)2La ") as [Htoken _].
  destruct (lastToken_is_last_symbol "Ca(OH)2") as [_ [_ [Hnone _]]].
  split.
  - apply (Htoken "Ca(OH)2" "L"%char "a"); reflexivity.
  - apply (Hnone "Ca(OH)" "2"%char); reflexivity.
Defined.

(** ** The list of suggestions *)

Lemma filterMatches_sound (token : string) (atomics : list AtomicMass) :
  forall l,
  filterMatches token atomics = Some l ->
  (forall a, In a l <->
     In a atomics
     /\ exists sym, Symbol a = Some sym /\ matches token sym a = true).
Proof.
  induction atomics as [ | x atomics IH]; intros l; cbn.
  - intros [= <-] a. cbn. split; [ contradiction | tauto ].
  - destruct (Symbol x) as [sym | ] eqn:Ex; [ | discriminate ].
    destruct (filterMatches token atomics) as [l' | ]; [ | discriminate ].
    intros [= <-] a. specialize (IH l' eq_refl a).
    destruct (matches token sym x) eqn:Em; cbn; rewrite IH.
    + split.
      * intros [<- | [Hin Hsym]]; [ | tauto ].
        split; [ now left | now exists sym ].
      * intros [[<- | Hin] Hsym]; [ now left | right; tauto ].
    + split.
      * intros [Hin Hsym]. tauto.
      * intros [[<- | Hin] [sym' [Hs Hm]]]; [ | eauto ].
        rewrite Ex in Hs. injection Hs as <-. congruence.
Qed.

Lemma filterMatches_None (token : string) (atomics : list AtomicMass) :
  filterMatches token atomics = None
  <-> exists a, In a atomics /\ Symbol a = None.
Proof.
  induction atomics as [ | x atomics IH]; cbn.
  - split; [ discriminate | intros [a [[] _]] ].
  - destruct (Symbol x) as [sym | ] eqn:Ex.
    + destruct (filterMatches token atomics) as [l | ].
      * split; [ discriminate | ].
        intros [a [[<- | Hin] Ha]]; [ congruence | ].
        destruct IH as [_ IH]. discriminate IH. now exists a.
      * split; [ | reflexivity ]. intros _.
        destruct IH as [IH _]. destruct (IH eq_refl) as [a [Hin Ha]].
        exists a. split; [ now right | exact Ha ].
    + split; [ | reflexivity ]. intros _. exists x. split; [ now left | exact Ex ].
Qed.

Lemma sliceTo_10 {A : Type} (l : list A) : JS.sliceTo 10 l = firstn 10 l.
Proof.
  unfold JS.sliceTo. cbn [Z.ltb Z.compare].
  destruct (Nat.le_gt_cases (List.length l) 10) as [Hle | Hgt].
  - rewrite !firstn_all2; [ reflexivity | exact Hle | lia ].
  - f_equal. lia.
Qed.

Lemma In_firstn {A : Type} (n : nat) (l : list A) (x : A) :
  In x (firstn n l) -> In x l.
Proof.
  intros H. rewrite <- (firstn_skipn n l). apply in_or_app. now left.
Qed.

(** X20. When the suggestions can be computed there are at most ten of them;
    each is an entry of the table whose symbol or element name starts with
    the token, letter case aside; there is none without a token or with an
    empty table; and when fewer than ten are shown, every entry of the table
    that starts with the token is among them. *)
Theorem suggestions_sound
    (val : string) (atomics : list AtomicMass) (l : list AtomicMass) :
  suggestions val atomics = Some l ->
  (List.length l <= 10)%nat
  /\ (forall a, In a l ->
        In a atomics
        /\ exists sym, Symbol a = Some sym
                       /\ matches (lastToken val) sym a = true)
  /\ (lastToken val = "" \/ atomics = [] -> l = [])
  /\ ((List.length l < 10)%nat -> showSuggestions val = true ->
      forall a sym,
        In a atomics -> Symbol a = Some sym ->
        matches (lastToken val) sym a = true -> In a l).
Proof.
  unfold suggestions. intros Hs.
  destruct (showSuggestions val && negb (Nat.eqb (List.length atomics) 0))
    eqn:Eshow.
  - destruct (filterMatches (lastToken val) atomics) as [l' | ] eqn:Ef;
      [ | discriminate ].
    injection Hs as <-. rewrite sliceTo_10.
    pose proof (filterMatches_sound _ _ _ Ef) as Hsound.
    apply andb_prop in Eshow. destruct Eshow as [Eshow Elen].
    split; [ rewrite length_firstn; lia | ].
    split; [ | split ].
    + intros a Ha. apply Hsound. now apply In_firstn with 10%nat.
    + intros [Htok | Hnil].
      * unfold showSuggestions in Eshow. now rewrite Htok in Eshow.
      * now rewrite Hnil in Elen.
    + intros Hlt _ a sym Hin Hsym Hm.
      rewrite length_firstn in Hlt.
      rewrite firstn_all2 by lia. apply Hsound. split; [ exact Hin | ].
      now exists sym.
  - injection Hs as <-. split; [ cbn; lia | ].
    split; [ intros a [] | ]. split; [ reflexivity | ].
    intros _ Hshow a sym Hin _ _. rewrite Hshow in Eshow. cbn in Eshow.
    apply negb_false_iff, Nat.eqb_eq in Eshow.
    now destruct atomics.
Qed.

(** The letter L against the table of five elements: lanthanum. *)
Lemma suggestions_sound_witness :
  suggestions "Ca(L" (atomics loaded)
  = Some [ {| Symbol := Some "La"; Atomic_Mass := JS.toNumber "138.90547";
              Element := Some "Lanthanum"; Atomic_Number := 57%float |} ]
  /\ (List.length
        [ {| Symbol := Some "La"; Atomic_Mass := JS.toNumber "138.90547";
             Element := Some "Lanthanum"; Atomic_Number := 57%float |} ]
      <= 10)%nat.
Proof.
  assert (Hs : suggestions "Ca(L" (atomics loaded)
               = Some [ {| Symbol := Some "La";
                           Atomic_Mass := JS.toNumber "138.90547";
                           Element := Some "Lanthanum";
                           Atomic_Number := 57%float |} ]).
  { vm_compute. reflexivity. }
  destruct (suggestions_sound "Ca(L" (atomics loaded) _ Hs) as [Hlen _].
  split; [ exact Hs | exact Hlen ].
Defined.

(** X21. Computing the suggestions throws exactly when there is a token and
    some entry of the table has no symbol.  The loader makes such entries:
    one line without commas in the file of the table takes the suggestions
    down for every text that ends with a token. *)
Theorem suggestions_throw (val : string) (atomics : list AtomicMass) :
  (suggestions val atomics = None
   <-> showSuggestions val = true
       /\ exists a, In a atomics /\ Symbol a = None)
  /\ (forall txt line,
        In line (dataLines txt) -> lacks "," line = true ->
        showSuggestions val = true ->
        suggestions val (loadAtomics txt) = None).
Proof.
  assert (Hiff : suggestions val atomics = None
                 <-> showSuggestions val = true
                     /\ exists a, In a atomics /\ Symbol a = None).
  { unfold suggestions. split.
    - destruct (showSuggestions val); cbn [andb]; [ | discriminate ].
      destruct (negb (Nat.eqb (List.length atomics) 0)); [ | discriminate ].
      destruct (filterMatches (lastToken val) atomics) eqn:Ef; [ discriminate | ].
      intros _. split; [ reflexivity | ]. now apply filterMatches_None in Ef.
    - intros [Hshow [a [Hin Ha]]]. rewrite Hshow. cbn [andb].
      destruct atomics as [ | x atomics']; [ contradiction | ].
      cbn [List.length Nat.eqb negb].
      replace (filterMatches (lastToken val) (x :: atomics'))
        with (@None (list AtomicMass)); [ reflexivity | ].
      symmetry. apply filterMatches_None. now exists a. }
  split; [ exact Hiff | ].
  intros txt line Hin Hline Hshow.
  clear Hiff. unfold suggestions. rewrite Hshow. cbn [andb].
  assert (Hex : exists a, In a (loadAtomics txt) /\ Symbol a = None).
  { exists (parseRow line). split.
    - unfold loadAtomics. now apply in_map.
    - unfold parseRow. now rewrite (split_whole _ _ Hline). }
  destruct (loadAtomics txt) as [ | x rest] eqn:El.
  - destruct Hex as [a [[] _]].
  - cbn [List.length Nat.eqb negb].
    replace (filterMatches (lastToken val) (x :: rest))
      with (@None (list AtomicMass)); [ reflexivity | ].
    symmetry. now apply filterMatches_None.
Qed.

(** A broken line in the file of the table, and the letter B typed. *)
Lemma suggestions_throw_witness :
  suggestions "B" (loadAtomics brokenTable) = None.
Proof.
  destruct (suggestions_throw "B" (loadAtomics brokenTable)) as [_ Hline].
  apply (Hline brokenTable "oops").
  - vm_compute. tauto.
  - reflexivity.
  - reflexivity.
Defined.

(** ** Picking a suggestion *)

Lemma substitute_plain (sym matched before after : string) :
  lacks "$" sym = true -> substitute sym matched before after = sym.
Proof.
  induction sym as [ | c sym IH]; cbn; intros H; [ reflexivity | ].
  apply andb_prop in H. destruct H as [Hc Hs].
  apply negb_true_iff in Hc. rewrite Hc, (IH Hs). reflexivity.
Qed.

(** What [pick] hands to [onChange] when there is a suggestion at the
    index. *)
Lemma pick_value (idx : nat) (val : string) (atomics l : list AtomicMass)
    (a : AtomicMass) :
  suggestions val atomics = Some l ->
  nth_error l idx = Some a ->
  exists sym,
    Symbol a = Some sym /\ pick idx val atomics = Some (replaceToken val sym).
Proof.
  intros Hs Ha. unfold pick. rewrite Hs, Ha.
  unfold suggestions in Hs.
  destruct (showSuggestions val && negb (Nat.eqb (List.length atomics) 0))
    eqn:Eshow.
  - destruct (filterMatches (lastToken val) atomics) as [l' | ] eqn:Ef;
      [ | discriminate ].
    injection Hs as <-. rewrite sliceTo_10 in Ha.
    apply nth_error_In, In_firstn in Ha.
    apply (filterMatches_sound _ _ _ Ef) in Ha.
    destruct Ha as [_ [sym [Hsym _]]].
    exists sym. rewrite Hsym. split; [ reflexivity | ].
    apply andb_prop in Eshow. destruct Eshow as [Eshow _].
    unfold showSuggestions in Eshow. apply andb_prop in Eshow.
    destruct Eshow as [Hne _]. now rewrite Hne.
  - injection Hs as <-. now destruct idx.
Qed.

(** X22. Picking a suggestion replaces the token at the end of the text by
    the symbol of the suggested element and keeps all that stands before the
    token; a symbol without a dollar sign is written as it is. *)
Theorem pick_replaces_token
    (idx : nat) (val : string) (atomics l : list AtomicMass) (a : AtomicMass)
    (before token : string) :
  suggestions val atomics = Some l ->
  nth_error l idx = Some a ->
  matchToken val = Some (before, token) ->
  exists sym,
    Symbol a = Some sym
    /\ val = (before ++ token)%string
    /\ pick idx val atomics
       = Some (before ++ substitute sym token before "")%string
    /\ (lacks "$" sym = true ->
        pick idx val atomics = Some (before ++ sym)%string).
Proof.
  intros Hs Ha Hm.
  destruct (pick_value idx val atomics l a Hs Ha) as [sym [Hsym Hpick]].
  exists sym. split; [ exact Hsym | ].
  destruct (matchToken_sound _ _ _ Hm) as [Hval _].
  split; [ exact Hval | ].
  assert (Hr : replaceToken val sym
               = (before ++ substitute sym token before "")%string).
  { unfold replaceToken. now rewrite Hm. }
  split.
  - now rewrite Hpick, Hr.
  - intros Hplain. now rewrite Hpick, Hr, substitute_plain.
Qed.

(** Lanthanum picked for the letter L at the end of a formula. *)
Lemma pick_replaces_token_witness :
  pick 0 "Ca(L" (atomics loaded) = Some "Ca(La".
Proof.
  destruct (pick_replaces_token 0 "Ca(L" (atomics loaded)
              [ {| Symbol := Some "La";
                   Atomic_Mass := JS.toNumber "138.90547";
                   Element := Some "Lanthanum";
                   Atomic_Number := 57%float |} ]
              {| Symbol := Some "La"; Atomic_Mass := JS.toNumber "138.90547";
                 Element := Some "Lanthanum"; Atomic_Number := 57%float |}
              "Ca(" "L")
    as [sym [Hsym [_ [_ Hpick]]]].
  - vm_compute. reflexivity.
  - reflexivity.
  - reflexivity.
  - cbn in Hsym. injection Hsym as <-. now apply Hpick.
Defined.

(** X23. When the text ends with white space the suggestions are still made
    for the token before that space, but picking one changes nothing: the
    pattern is looked for at the very end of the untrimmed text, where it
    does not match, and the text goes back to [onChange] as it is. *)
Theorem pick_after_trailing_space
    (idx : nat) (v : string) (sp : ascii) (atomics l : list AtomicMass)
    (a : AtomicMass) :
  JS.is_space sp = true ->
  suggestions (v ++ String sp "") atomics = Some l ->
  nth_error l idx = Some a ->
  pick idx (v ++ String sp "") atomics = Some (v ++ String sp "")%string
  /\ lastToken (v ++ String sp "") = lastToken v.
Proof.
  intros Hsp Hs Ha.
  destruct (pick_value idx _ atomics l a Hs Ha) as [sym [_ Hpick]].
  destruct (space_not_letter sp Hsp) as [Hu Hl].
  split.
  - rewrite Hpick. unfold replaceToken.
    now rewrite (matchToken_no_letter v sp Hu Hl).
  - unfold lastToken. now rewrite (trim_space v sp Hsp).
Qed.

(** The letter L with a blank after it. *)
Lemma pick_after_trailing_space_witness :
  pick 0 "Ca(L " (atomics loaded) = Some "Ca(L ".
Proof.
  apply (pick_after_trailing_space 0 "Ca(L" " " (atomics loaded)
           [ {| Symbol := Some "La";
                Atomic_Mass := JS.toNumber "138.90547";
                Element := Some "Lanthanum";
                Atomic_Number := 57%float |} ]
           {| Symbol := Some "La"; Atomic_Mass := JS.toNumber "138.90547";
              Element := Some "Lanthanum"; Atomic_Number := 57%float |}).
  - reflexivity.
  - vm_compute. reflexivity.
  - reflexivity.
Defined.

(** ** Moving the highlight *)

(** X24. On a list of [n > 0] suggestions, with the highlight at -1 (none)
    or at an index of the list, every key leaves it at -1 or at an index of
    the list, and an arrow key always leaves it at an index: the arrows stop
    at the ends of the list without wrapping, and the up arrow from no
    highlight goes to the first suggestion. *)
Theorem onKeyDown_keeps_highlight_valid (n : Z) (key : Key) (highlight : Z) :
  (0 < n)%Z -> (-1 <= highlight < n)%Z ->
  (-1 <= onKeyDown n key highlight < n)%Z
  /\ (key = ArrowDown \/ key = ArrowUp ->
      (0 <= onKeyDown n key highlight < n)%Z)
  /\ onKeyDown n ArrowDown (n - 1) = (n - 1)%Z
  /\ onKeyDown n ArrowUp 0 = 0%Z
  /\ onKeyDown n ArrowUp (-1) = 0%Z
  /\ (key = Enter -> (0 <= highlight)%Z -> onKeyDown n key highlight = (-1)%Z).
Proof.
  intros Hn Hh. unfold onKeyDown.
  destruct (Z.eqb_spec n 0) as [-> | _]; [ lia | ].
  split; [ | split; [ | split; [ | split; [ | split ] ] ] ].
  - destruct key; try lia.
    destruct ((0 <=? highlight)%Z && (highlight <? n)%Z); lia.
  - intros [-> | ->]; lia.
  - lia.
  - lia.
  - lia.
  - intros -> Hpos.
    destruct (Z.leb_spec 0 highlight); [ | lia ].
    destruct (Z.ltb_spec highlight n); [ reflexivity | lia ].
Qed.

(** Three suggestions, the last one highlighted, and the down arrow. *)
Lemma onKeyDown_keeps_highlight_valid_witness :
  (-1 <= onKeyDown 3 ArrowDown 2 < 3)%Z.
Proof.
  destruct (onKeyDown_keeps_highlight_valid 3 ArrowDown 2) as [Hvalid _];
    [ lia | lia | exact Hvalid ].
Defined.

(** * Further properties of the provider, continued *)

(** ** What the composition data depends on *)

Lemma collect_pairs {A V : Type} (test : A -> bool) (key : A -> string)
    (val : A -> V) (l : list A) :
  forall m,
  collect test key val l m
  = collect (fun _ => true) fst snd
      (map (fun x => (key x, val x)) (filter test l)) m.
Proof.
  induction l as [ | x l IH]; intros m; cbn; [ reflexivity | ].
  destruct (test x); cbn; apply IH.
Qed.

(** X25. The composition data depends on the formulas and the matrix values
    of the kept components only, in their order: the components that are
    skipped, and the weights of all of them, have no influence on the entries
    or on their percentages. *)
Theorem composition_depends_on_kept (cs1 cs2 : list Component.t) :
  map (fun c => (Component.formula c, Component.matrix c)) (keptComponents cs1)
  = map (fun c => (Component.formula c, Component.matrix c)) (keptComponents cs2) ->
  generateCompositionData cs1 = generateCompositionData cs2.
Proof.
  intros Heq.
  assert (Hmap : compoundMap cs1 = compoundMap cs2).
  { rewrite !compoundMap_collect.
    rewrite (collect_pairs retained Component.formula Component.matrix cs1).
    rewrite (collect_pairs retained Component.formula Component.matrix cs2).
    unfold keptComponents in Heq. now rewrite Heq. }
  unfold generateCompositionData. now rewrite Hmap.
Qed.

(** An empty place, a component without matrix value and other weights make
    no difference. *)
Lemma composition_depends_on_kept_witness :
  generateCompositionData
    [ Component.mk "CaO" 30 0; emptyComponent; Component.mk "La2O3" 0 325;
      Component.mk "H3BO3" 60 0 ]
  = generateCompositionData
      [ Component.mk "CaO" 30 56; Component.mk "H3BO3" 60 62 ].
Proof.
  apply composition_depends_on_kept. reflexivity.
Defined.

(** ** The effect on the table *)

(** X26. The effect on [atomics] changes nothing but the stored weights: the
    table, the counts, and the formula and matrix value of every component
    stay, as do the formula, the gravimetric factor, the precursor formula and
    the mole values of every product - the factors are not computed again
    for the new table.  Running the effect again changes nothing more. *)
Theorem atomicsEffect_frame (st : State) :
  let st' := atomicsEffect st in
  atomics st' = atomics st
  /\ numComponents st' = numComponents st
  /\ numProducts st' = numProducts st
  /\ map Component.formula (components st')
     = map Component.formula (components st)
  /\ map Component.matrix (components st')
     = map Component.matrix (components st)
  /\ map (fun p => (Product.formula p, Product.gf p, Product.precursorFormula p,
                    Product.precursorMoles p, Product.productMoles p))
       (products st')
     = map (fun p => (Product.formula p, Product.gf p,
                      Product.precursorFormula p, Product.precursorMoles p,
                      Product.productMoles p))
         (products st)
  /\ atomicsEffect st' = st'.
Proof.
  cbn [atomicsEffect atomics numComponents numProducts components products
       desiredBatch].
  rewrite !map_map. cbn.
  repeat (split; [ reflexivity | ]).
  unfold atomicsEffect. cbn. rewrite !map_map. cbn. reflexivity.
Qed.

(** ** The count of components and the products *)



(** ** Precursor moles, from the form to the raw quantity *)

Lemma lastWith_app {A : Type} (test : A -> bool) (l1 l2 : list A) :
  lastWith test (l1 ++ l2)
  = match lastWith test l2 with
    | Some y => Some y
    | None => lastWith test l1
    end.
Proof.
  induction l1 as [ | x l1 IH]; cbn.
  - now destruct (lastWith test l2).
  - rewrite IH. now destruct (lastWith test l2).
Qed.

Lemma update_app {A : Type} (f : A -> A) (l1 : list A) (x : A) (l2 : list A) :
  update (List.length l1) f (l1 ++ x :: l2) = (l1 ++ f x :: l2)%list.
Proof.
  induction l1 as [ | y l1 IH]; cbn; [ reflexivity | now rewrite IH ].
Qed.

(** X28. Precursor moles typed for a product reach the raw quantity of its
    precursor: when no later product names the same precursor and the value
    is neither 0 nor NaN, every component with that formula gets the raw
    quantity [matrix * mw * value / 1000] at the next render. *)
Theorem precursor_moles_reach_raw_quantity
    (st : State) (before after : list Product.t) (p : Product.t)
    (value : JS.number) (c : Component.t) :
  products st = (before ++ p :: after)%list ->
  (forall q, In q after ->
     Product.precursorFormula q <> Product.precursorFormula p) ->
  JS.nonempty (Product.precursorFormula p) = true ->
  JS.truthy value = true ->
  In c (components st) ->
  Component.formula c = Product.precursorFormula p ->
  let st' :=
    handleProductChange (List.length before) (PrecursorMolesField value) st in
  moleRatio (Product.precursorFormula p) (products st') = value
  /\ In (ComponentResult.mk (Component.formula c) (Component.matrix c)
           (Component.mw c)
           ((Component.matrix c * Component.mw c * value) / 1000)%float
           None None)
       (compResults (components st') (products st')).
Proof.
  intros Hps Hafter Hne Hv Hc Hf.
  cbn [handleProductChange products components].
  rewrite Hps, update_app.
  set (p' := refreshGF (atomics st)
               (setProductField (PrecursorMolesField value) (atomics st) p)).
  assert (Hpf : Product.precursorFormula p' = Product.precursorFormula p).
  { subst p'. unfold refreshGF. cbn.
    now destruct (JS.nonempty (Product.precursorFormula p)
                  && JS.nonempty (Product.formula p)). }
  assert (Hpm : Product.precursorMoles p' = value).
  { subst p'. unfold refreshGF. cbn.
    now destruct (JS.nonempty (Product.precursorFormula p)
                  && JS.nonempty (Product.formula p)). }
  assert (Hm : matchedProduct (Product.precursorFormula p)
                 (before ++ p' :: after) = Some p').
  { unfold matchedProduct. rewrite lastWith_app. cbn [lastWith].
    replace (lastWith _ after) with (@None Product.t).
    - now rewrite Hpf, Hne, String.eqb_refl.
    - symmetry. apply lastWith_None. intros q Hq.
      apply andb_false_iff. right. apply String.eqb_neq. now apply Hafter. }
  assert (Hr : moleRatio (Product.precursorFormula p) (before ++ p' :: after)
               = value).
  { unfold moleRatio. now rewrite Hm, Hpm, Hv. }
  split; [ exact Hr | ].
  unfold compResults. apply in_map_iff. exists c. split; [ | exact Hc ].
  now rewrite molesOf_moleRatio, Hf, Hr.
Qed.

(** Three moles of boric acid typed for boron oxide in the default batch. *)
Lemma precursor_moles_reach_raw_quantity_witness :
  moleRatio "H3BO3"
    (products (handleProductChange 0 (PrecursorMolesField 3) initial))
  = 3%float.
Proof.
  apply (precursor_moles_reach_raw_quantity initial []
           [Product.mk "La2O3" 0 None "La2O3" 1 1]
           (Product.mk "B2O3" 0 None "H3BO3" 2 1) 3
           (Component.mk "H3BO3" 60 0)).
  - reflexivity.
  - intros q [<- | []]. discriminate.
  - reflexivity.
  - reflexivity.
  - cbn. tauto.
  - reflexivity.
Defined.
